(** * my_quant: the multi-indicator strategy of [trading_strategy.py]

    A shallow embedding of [MultiIndicatorStrategy] ([next], [notify_order])
    and of [run_backtest], with the properties the specification states about
    them.

    Numbers.  The program computes on Python floats.  Prices, cash and sizes
    are idealised as exact rationals ([Q]); a value read from an indicator
    line is a [Value], where [None] stands for the NaN that fills a line
    before its warm-up is over.  As in Python, every ordered comparison with a
    NaN is false.  Where the rounding of the floats decides the result, in the
    position size, the computation is also given on binary64 ([Binary64]). *)

From Stdlib Require Import ZArith QArith Qround Lqa Lia List Bool Sorted Permutation.
From Stdlib Require String Ascii PrimFloat FloatOps SpecFloat.
Import ListNotations.

Open Scope Q_scope.

(** ** Python numbers *)

Definition Qlt_bool (x y : Q) : bool := negb (Qle_bool y x).

Definition Value := option Q.

(** [a < b] and [a > b] on floats that may be NaN. *)
Definition vlt (a b : Value) : bool :=
  match a, b with
  | Some x, Some y => Qlt_bool x y
  | _, _ => false
  end.

Definition vgt (a b : Value) : bool := vlt b a.

(** [c * a - c' * b] on line values: arithmetic on a NaN gives a NaN. *)
Definition vlin (c : Q) (a : Value) (c' : Q) (b : Value) : Value :=
  match a, b with
  | Some x, Some y => Some (c * x - c' * y)
  | _, _ => None
  end.

(** [int(x)]: truncation toward zero. *)
Definition py_int (x : Q) : Z := Z.quot (Qnum x) (Zpos (Qden x)).

(** [any(conditions)]. *)
Definition any (conditions : list bool) : bool := existsb (fun c => c) conditions.

(** Exceptions.  In the model over the rationals the only operation of [next]
    that can raise is the division, on a zero divisor; on floats [int] raises
    on an infinity and on a NaN, and the indicators of the framework can raise
    when they are computed. *)
Inductive PyError : Set :=
| ZeroDivisionError
| IndexError
| OverflowError
| ValueError.

Inductive Exc (A : Type) : Type :=
| Return (a : A)
| Raise (e : PyError).
Arguments Return {A} a.
Arguments Raise {A} e.

Definition bind {A B : Type} (m : Exc A) (k : A -> Exc B) : Exc B :=
  match m with
  | Return a => k a
  | Raise e => Raise e
  end.

Notation "x <- m ;; k" := (bind m (fun x => k))
  (at level 61, m at next level, right associativity).

Definition py_div (a b : Q) : Exc Q :=
  if Qeq_bool b 0 then Raise ZeroDivisionError else Return (a / b).

(** ** Parameters, feed and indicator lines *)

Record Params : Type := {
  macd1 : Z;  macd2 : Z;  macdsig : Z;
  rsi_period : Z;  rsi_upper : Q;  rsi_lower : Q;
  kdj_period : Z;  kdj_slow : Z;  kdj_fast : Z;
  boll_period : Z;  boll_dev : Q;
  risk_percent : Q
}.

Definition params : Params := {|
  macd1 := 12;  macd2 := 26;  macdsig := 9;
  rsi_period := 14;  rsi_upper := 70;  rsi_lower := 30;
  kdj_period := 9;  kdj_slow := 3;  kdj_fast := 3;
  boll_period := 20;  boll_dev := 2;
  risk_percent := 2 # 100
|}.

Record Bar : Type := {
  datetime : Z;
  open : Q;  high : Q;  low : Q;  close : Q;
  volume : Q
}.

(** What the indicator objects built in [__init__] give at the current bar:
    [x_0] is the read [x[0]], [x_1] the read [x[-1]].  The indicators are
    backtrader's and TA-Lib's; their outputs are inputs of the model. *)
Record Indicators : Type := {
  macd_1 : Value;  macd_0 : Value;
  macdsignal_1 : Value;  macdsignal_0 : Value;
  rsi_0 : Value;
  slowk_1 : Value;  slowk_0 : Value;
  slowd_1 : Value;  slowd_0 : Value;
  bot_0 : Value;  top_0 : Value
}.

(** The lines the strategy object holds: the indicators and the J line. *)
Record Lines : Type := {
  ind : Indicators;
  j_0 : Value
}.

(** [self.j = 3 * self.k - 2 * self.d]. *)
Definition init_lines (i : Indicators) : Lines :=
  {| ind := i; j_0 := vlin 3 (slowk_0 i) 2 (slowd_0 i) |}.

(** ** Orders, broker and strategy state *)

Inductive Side : Set := Buy | Sell.

(** The order statuses that [notify_order] names.  The market orders of this
    strategy are filled whole and never expire, so the broker reports no
    other; [notify_order] would empty the slot on any status but the first
    two. *)
Inductive Status : Set :=
| Submitted | Accepted | Completed | Canceled | Margin | Rejected.

Record Executed : Type := { price : Q;  value : Q;  comm : Q }.

Record Order : Type := {
  side : Side;
  size : Z;
  status : Status;
  executed : Executed
}.

Definition isbuy (o : Order) : bool :=
  match side o with Buy => true | Sell => false end.

Record Broker : Type := {
  cash : Q;
  position : Z;          (* position.size *)
  commission : Q;
  orders : list Order    (* the orders not yet resolved *)
}.

(** Modelled from the spec: the portfolio value of section 3, total equity =
    cash + position.size * current close; [broker.getvalue()] is backtrader's
    and is not part of the sources. *)
Definition getvalue (b : Broker) (c : Q) : Q := cash b + inject_Z (position b) * c.

Definition no_execution : Executed := {| price := 0; value := 0; comm := 0 |}.

(** Modelled from the spec: order creation of section 4.4, behind
    [self.buy(size=...)] and [self.sell(size=...)], which are backtrader's.
    The new order goes to the broker, where it stays until it is resolved,
    and is returned to the caller. *)
Definition new_order (s : Side) (n : Z) : Order :=
  {| side := s; size := n; status := Submitted; executed := no_execution |}.

Definition submit (b : Broker) (s : Side) (n : Z) : Order * Broker :=
  let o := new_order s n in
  (o, {| cash := cash b; position := position b; commission := commission b;
         orders := orders b ++ [o] |}).

Definition buy (b : Broker) (n : Z) : Order * Broker := submit b Buy n.
Definition sell (b : Broker) (n : Z) : Order * Broker := submit b Sell n.

Inductive LogLine : Type :=
| BUY_CREATE (c : Q)
| SELL_CREATE (c : Q)
| Invalid_price_data
| BUY_EXECUTED (e : Executed)
| SELL_EXECUTED (e : Executed)
| Order_Canceled_Margin_Rejected.

Record Strategy : Type := {
  order : option Order;
  buyprice : option Q;
  buycomm : option Q;
  bar_executed : option nat;
  portfolio_values : list Q;
  dates : list Z;
  printed : list LogLine
}.

Definition init : Strategy := {|
  order := None;  buyprice := None;  buycomm := None;  bar_executed := None;
  portfolio_values := [];  dates := [];  printed := []
|}.

Definition log (self : Strategy) (txt : LogLine) : Strategy :=
  {| order := order self; buyprice := buyprice self; buycomm := buycomm self;
     bar_executed := bar_executed self;
     portfolio_values := portfolio_values self; dates := dates self;
     printed := printed self ++ [txt] |}.

Definition set_order (self : Strategy) (o : option Order) : Strategy :=
  {| order := o; buyprice := buyprice self; buycomm := buycomm self;
     bar_executed := bar_executed self;
     portfolio_values := portfolio_values self; dates := dates self;
     printed := printed self |}.

(** The last two statements of [next]. *)
Definition record_value (self : Strategy) (v : Q) (dt : Z) : Strategy :=
  {| order := order self; buyprice := buyprice self; buycomm := buycomm self;
     bar_executed := bar_executed self;
     portfolio_values := portfolio_values self ++ [v];
     dates := dates self ++ [dt];
     printed := printed self |}.

(** ** [notify_order] *)

Definition notify_order (len : nat) (o : Order) (self : Strategy) : Strategy :=
  match status o with
  | Submitted | Accepted => self
  | Completed =>
      let self1 :=
        if isbuy o then
          let s := log self (BUY_EXECUTED (executed o)) in
          {| order := order s;
             buyprice := Some (price (executed o));
             buycomm := Some (comm (executed o));
             bar_executed := bar_executed s;
             portfolio_values := portfolio_values s; dates := dates s;
             printed := printed s |}
        else log self (SELL_EXECUTED (executed o)) in
      set_order
        {| order := order self1; buyprice := buyprice self1; buycomm := buycomm self1;
           bar_executed := Some len;
           portfolio_values := portfolio_values self1; dates := dates self1;
           printed := printed self1 |} None
  | Canceled | Margin | Rejected =>
      set_order (log self Order_Canceled_Margin_Rejected) None
  end.

(** ** [next] *)

Section Next.

Variable p : Params.

Definition buy_conditions (l : Lines) (c : Q) : list bool :=
  let i := ind l in
  [ vlt (macd_1 i) (macdsignal_1 i) && vgt (macd_0 i) (macdsignal_0 i);
    vlt (rsi_0 i) (Some (rsi_lower p));
    vlt (slowk_1 i) (slowd_1 i) && vgt (slowk_0 i) (slowd_0 i);
    vlt (Some c) (bot_0 i) ].

Definition sell_conditions (l : Lines) (c : Q) : list bool :=
  let i := ind l in
  [ vgt (macd_1 i) (macdsignal_1 i) && vlt (macd_0 i) (macdsignal_0 i);
    vgt (rsi_0 i) (Some (rsi_upper p));
    vgt (slowk_1 i) (slowd_1 i) && vlt (slowk_0 i) (slowd_0 i);
    vgt (Some c) (top_0 i) ].

(** The position size computed inside [next]: [None] is the branch that logs
    the invalid price and returns. *)
Definition position_size (equity c : Q) : Exc (option Z) :=
  let risk_amount := equity * risk_percent p in
  if Qlt_bool 0 c then
    q <- py_div risk_amount (c * (101 # 100)) ;;
    Return (Some (Z.max 1 (py_int q)))
  else Return None.

Definition next (data : Bar) (l : Lines) (self : Strategy) (broker : Broker)
  : Exc (Strategy * Broker) :=
  match order self with
  | Some _ => Return (self, broker)
  | None =>
      let c := close data in
      if Z.eqb (position broker) 0 then
        if any (buy_conditions l c) then
          let self1 := log self (BUY_CREATE c) in
          sz <- position_size (getvalue broker c) c ;;
          match sz with
          | Some n =>
              let (o, broker1) := buy broker n in
              Return (record_value (set_order self1 (Some o)) (getvalue broker1 c)
                        (datetime data), broker1)
          | None => Return (log self1 Invalid_price_data, broker)
          end
        else Return (record_value self (getvalue broker c) (datetime data), broker)
      else
        if any (sell_conditions l c) then
          let self1 := log self (SELL_CREATE c) in
          let (o, broker1) := sell broker (position broker) in
          Return (record_value (set_order self1 (Some o)) (getvalue broker1 c)
                    (datetime data), broker1)
        else Return (record_value self (getvalue broker c) (datetime data), broker)
  end.

End Next.

(** ** The broker and the event loop *)

(** Modelled from the spec: what the broker of section 4.4 does with the
    orders it holds when a new bar arrives.  It resolves them ([Execute]); the
    model also lets it keep them for a later bar ([Keep]) or drop them
    ([Cancel], [Reject]), so that the properties below hold however the broker
    behaves. *)
Inductive BrokerEvent : Set := Keep | Execute | Cancel | Reject.

Definition with_status (o : Order) (s : Status) (e : Executed) : Order :=
  {| side := side o; size := size o; status := s; executed := e |}.

(** Modelled from the spec: the order resolution of the Order/Portfolio
    Simulator (section 4.4); the broker is backtrader's and is not part of the
    sources.  A pending order is filled at the bar's execution price, taken as
    the open of the bar that follows the order; the commission is the fill
    value times the commission rate and is deducted from cash.  No leverage or
    margin is modelled: a buy that cash does not cover is refused with status
    [Margin]. *)
Definition execute (px : Q) (b : Broker) (o : Order) : Broker * Order :=
  let v := inject_Z (size o) * px in
  let fee := v * commission b in
  let e := {| price := px; value := v; comm := fee |} in
  match side o with
  | Buy =>
      if Qle_bool (v + fee) (cash b) then
        ({| cash := cash b - v - fee; position := (position b + size o)%Z;
            commission := commission b; orders := orders b |},
         with_status o Completed e)
      else (b, with_status o Margin no_execution)
  | Sell =>
      ({| cash := cash b + v - fee; position := (position b - size o)%Z;
          commission := commission b; orders := orders b |},
       with_status o Completed e)
  end.

Definition clear_orders (b : Broker) : Broker :=
  {| cash := cash b; position := position b; commission := commission b; orders := [] |}.

Fixpoint execute_all (px : Q) (b : Broker) (os : list Order) : Broker * list Order :=
  match os with
  | [] => (b, [])
  | o :: rest =>
      let (b1, done) := execute px b o in
      let (b2, notes) := execute_all px b1 rest in
      (b2, with_status o Accepted no_execution :: done :: notes)
  end.

(** Modelled from the spec: the broker's turn at a bar (section 4.4), giving
    the new state and the notifications in the order in which the strategy
    receives them. *)
Definition broker_next (ev : BrokerEvent) (data : Bar) (b : Broker) : Broker * list Order :=
  match ev with
  | Keep => (b, map (fun o => with_status o Accepted no_execution) (orders b))
  | Execute => execute_all (open data) (clear_orders b) (orders b)
  | Cancel => (clear_orders b, map (fun o => with_status o Canceled no_execution) (orders b))
  | Reject => (clear_orders b, map (fun o => with_status o Rejected no_execution) (orders b))
  end.

Record Tick : Type := {
  data : Bar;
  lines : Lines;
  event : BrokerEvent
}.

Definition notify_all (len : nat) (notes : list Order) (self : Strategy) : Strategy :=
  fold_left (fun s o => notify_order len o s) notes self.

(** Modelled from the spec: one simulation step per bar (sections 2 and 5);
    the event loop is backtrader's.  The broker has its turn, the strategy is
    notified, then [next] is called.  [len] is [len(self)], the number of bars
    seen so far. *)
Definition step (p : Params) (len : nat) (t : Tick) (st : Strategy * Broker)
  : Exc (Strategy * Broker) :=
  let (self, broker) := st in
  let (broker1, notes) := broker_next (event t) (data t) broker in
  next p (data t) (lines t) (notify_all len notes self) broker1.

(** Modelled from the spec: the single forward pass over the bars. *)
Fixpoint run (p : Params) (len : nat) (ticks : list Tick) (st : Strategy * Broker)
  : Exc (Strategy * Broker) :=
  match ticks with
  | [] => Return st
  | t :: rest => st1 <- step p (S len) t st ;; run p (S len) rest st1
  end.

(** ** [run_backtest] *)

Definition new_broker (startcash rate : Q) : Broker :=
  {| cash := startcash; position := 0; commission := rate; orders := [] |}.

Inductive Outcome : Type :=
| No_data_available
| No_portfolio_values_recorded (final : Strategy * Broker)
| Report_generated (final : Strategy * Broker).

Section Cerebro.

(** The framework's side of a run once the indicators have been computed:
    the indicator engine (the values of the lines at bar [i] of the feed), the
    broker's behaviour at bar [i], and the minimum period after which [next]
    is first called (before it the framework calls [prenext], which the
    strategy does not override). *)
Variable engine : list Bar -> nat -> Indicators.
Variable behaviour : nat -> BrokerEvent.
Variable minperiod : nat.

Definition feed (df : list Bar) : list Tick :=
  map (fun ib => {| data := snd ib;
                    lines := init_lines (engine df (fst ib));
                    event := behaviour (fst ib) |})
      (combine (seq 0 (length df)) df).

(** The replay of the bars by [cerebro.run()], with the lines at hand. *)
Definition cerebro_run (df : list Bar) : Exc (Strategy * Broker) :=
  run params (minperiod - 1) (skipn (minperiod - 1) (feed df))
      (init, new_broker 100000 (1 # 1000)).

End Cerebro.

Section Backtest.

(** The indicators are computed over the whole frame before the first bar is
    replayed, and this can raise: backtrader's indicators raise an
    [IndexError] on a frame shorter than their windows, and its RSI a
    [ZeroDivisionError] on a window with no down move.  [indicators] gives
    the lines, or the exception. *)
Variable indicators : list Bar -> Exc (nat -> Indicators).
Variable behaviour : nat -> BrokerEvent.
Variable minperiod : nat.

(** [cerebro.run()]. *)
Definition run_cerebro (bars : list Bar) : Exc (Strategy * Broker) :=
  computed <- indicators bars ;;
  cerebro_run (fun _ => computed) behaviour minperiod bars.

(** [df] is what [fetch_stock_data] returned: [None], or the frame.  An
    exception of [cerebro.run()] is not caught. *)
Definition run_backtest (df : option (list Bar)) : Exc Outcome :=
  match df with
  | None => Return No_data_available
  | Some [] => Return No_data_available
  | Some bars =>
      results <- run_cerebro bars ;;
      match portfolio_values (fst results) with
      | [] => Return (No_portfolio_values_recorded results)
      | _ :: _ => Return (Report_generated results)
      end
  end.

End Backtest.

(** ** The RSI indicator *)

(** Modelled from the spec: RSI(period) of the Indicator Engine (section 4.1);
    the indicator is backtrader's and is not part of the sources.  Gains and
    losses of consecutive prices are averaged over the first [period] changes
    and smoothed by Wilder's rule afterwards; the index is
    [100 - 100 / (1 + RS)] with [RS] the ratio of the two averages, taken as
    [100] when the average loss is zero.  Positions before [period] are
    undefined, and so is every position when the period is not positive. *)
Definition gain (prev x : Q) : Q := if Qlt_bool prev x then x - prev else 0.

Definition loss (prev x : Q) : Q := if Qlt_bool x prev then prev - x else 0.

Definition rsi_index (avg_gain avg_loss : Q) : Q :=
  if Qeq_bool avg_loss 0 then 100 else 100 - 100 / (1 + avg_gain / avg_loss).

Definition smooth (period n : nat) (acc x : Q) : Q :=
  if Nat.ltb n period then acc + x
  else if Nat.eqb n period then (acc + x) / inject_Z (Z.of_nat period)
  else (acc * inject_Z (Z.of_nat period - 1) + x) / inject_Z (Z.of_nat period).

Fixpoint rsi_from (period n : nat) (prev avg_gain avg_loss : Q) (prices : list Q)
  : list Value :=
  match prices with
  | [] => []
  | x :: rest =>
      let g := smooth period (S n) avg_gain (gain prev x) in
      let l := smooth period (S n) avg_loss (loss prev x) in
      (if Nat.ltb (S n) period then None else Some (rsi_index g l))
        :: rsi_from period (S n) x g l rest
  end.

(** Modelled from the spec: the RSI line, aligned with the prices. *)
Definition RSI (period : nat) (prices : list Q) : list Value :=
  match period, prices with
  | O, _ => map (fun _ => None) prices
  | _, [] => []
  | _, x :: rest => None :: rsi_from period 0 x 0 0 rest
  end.


(** ** Signals and created orders, as the specification words them *)

Definition crosses_above (a_1 b_1 a_0 b_0 : Value) : Prop :=
  vlt a_1 b_1 = true /\ vgt a_0 b_0 = true.

Definition crosses_below (a_1 b_1 a_0 b_0 : Value) : Prop :=
  vgt a_1 b_1 = true /\ vlt a_0 b_0 = true.

Definition buy_signal (p : Params) (l : Lines) (c : Q) : Prop :=
  let i := ind l in
  crosses_above (macd_1 i) (macdsignal_1 i) (macd_0 i) (macdsignal_0 i)
  \/ vlt (rsi_0 i) (Some (rsi_lower p)) = true
  \/ crosses_above (slowk_1 i) (slowd_1 i) (slowk_0 i) (slowd_0 i)
  \/ vlt (Some c) (bot_0 i) = true.

Definition sell_signal (p : Params) (l : Lines) (c : Q) : Prop :=
  let i := ind l in
  crosses_below (macd_1 i) (macdsignal_1 i) (macd_0 i) (macdsignal_0 i)
  \/ vgt (rsi_0 i) (Some (rsi_upper p)) = true
  \/ crosses_below (slowk_1 i) (slowd_1 i) (slowk_0 i) (slowd_0 i)
  \/ vgt (Some c) (top_0 i) = true.

(** A call of [next] that returned [r] from strategy [self] and broker [b]
    created the order [o]: the slot was empty, holds [o] afterwards, and the
    broker has received [o]. *)
Definition creates (self : Strategy) (b : Broker) (r : Exc (Strategy * Broker))
    (o : Order) : Prop :=
  order self = None /\
  exists self' b', r = Return (self', b') /\ order self' = Some o
                   /\ orders b' = orders b ++ [o].

Definition undefined : Indicators :=
  Build_Indicators None None None None None None None None None None None.

(** The same tick with another value on the J line. *)
Definition with_j (f : Tick -> Value) (t : Tick) : Tick :=
  {| data := data t;
     lines := {| ind := ind (lines t); j_0 := f t |};
     event := event t |}.

(** ** Invariants of the event loop *)

(** The strategy's slot mirrors the broker's book, which holds one order at
    most. *)
Definition slot_mirrors_book (st : Strategy * Broker) : Prop :=
  match order (fst st) with
  | None => orders (snd st) = []
  | Some o => orders (snd st) = [o]
  end.

(** No leverage and no short position: cash and position stay non-negative,
    a pending buy is for one share at least and a pending sell for the whole
    position. *)
Definition solvent (st : Strategy * Broker) : Prop :=
  let b := snd st in
  0 <= cash b /\ (0 <= position b)%Z
  /\ Forall (fun v => 0 <= v) (portfolio_values (fst st))
  /\ forall o, In o (orders b) ->
       match side o with
       | Buy => (1 <= size o)%Z
       | Sell => size o = position b
       end.

Definition nonneg_prices (t : Tick) : Prop :=
  0 <= open (data t) /\ 0 <= close (data t).

(** ** Sample inputs *)

Definition flat_bar (dt : Z) (c : Q) : Bar :=
  {| datetime := dt; open := c; high := c; low := c; close := c; volume := 1 |}.

(** Every indicator undefined but the RSI. *)
Definition only_rsi (r : Q) : Lines :=
  init_lines (Build_Indicators None None None None (Some r) None None None None None None).

Definition fair_commission (b : Broker) : Prop := 0 <= commission b <= 1.

Definition sample_ticks : list Tick :=
  [ {| data := flat_bar 1 10; lines := only_rsi 10; event := Execute |};
    {| data := flat_bar 2 12; lines := only_rsi 80; event := Execute |};
    {| data := flat_bar 3 11; lines := only_rsi 50; event := Execute |} ].

(** Forty daily bars in ascending order with no volume: the close
    alternates between 10 and 9, the high is 11 and the low 8. *)
Definition zero_volume_series : list Bar :=
  map (fun i => {| datetime := Z.of_nat i;
                   open := if Nat.even i then 9 else 10;
                   high := 11; low := 8;
                   close := if Nat.even i then 9 else 10;
                   volume := 0 |})
      (seq 1 40).

(** Indicators for the samples: an [IndexError] on a frame of fewer than 20
    bars, the given lines otherwise. *)
Definition sample_indicators (computed : nat -> Indicators) (bars : list Bar)
  : Exc (nat -> Indicators) :=
  if Nat.ltb (length bars) 20 then Raise IndexError else Return computed.

Definition bounded (v : Value) : Prop :=
  match v with
  | None => True
  | Some x => 0 <= x <= 100
  end.

(** ** Further notions used by the properties of the strategy *)

(** The elements of [l] that a mask keeps, in their order. *)
Fixpoint pick {A : Type} (mask : list bool) (l : list A) : list A :=
  match mask, l with
  | keep :: mask', x :: l' => if keep then x :: pick mask' l' else pick mask' l'
  | _, _ => []
  end.

(** Long only: the position is never short, a pending buy was placed on a
    flat position for one share at least, and a pending sell is for the whole
    of a long position. *)
Definition long_only (st : Strategy * Broker) : Prop :=
  let b := snd st in
  (0 <= position b)%Z
  /\ forall o, In o (orders b) ->
       match side o with
       | Buy => (1 <= size o)%Z /\ position b = 0%Z
       | Sell => size o = position b /\ (0 < position b)%Z
       end.

(** ** The returns handed to the report *)

(** A float of the returns series: finite, infinite or NaN. *)
Inductive Float : Type :=
| Finite (q : Q)
| PosInf
| NegInf
| NaN.

(** [x / prev - 1] as pandas computes it on floats: a division by zero gives
    an infinity of the sign of [x], or NaN for [0 / 0], and raises nothing. *)
Definition change (prev x : Q) : Float :=
  if Qeq_bool prev 0 then
    if Qlt_bool 0 x then PosInf else if Qlt_bool x 0 then NegInf else NaN
  else Finite (x / prev - 1).

Fixpoint pct_change_from (prev : Q) (values : list Q) : list Float :=
  match values with
  | [] => []
  | x :: rest => change prev x :: pct_change_from x rest
  end.

(** [Series.pct_change()]: the first position has no predecessor and is NaN. *)
Definition pct_change (values : list Q) : list Float :=
  match values with
  | [] => []
  | x :: rest => NaN :: pct_change_from x rest
  end.

(** [Series.fillna(v)]. *)
Definition fill (v : Q) (f : Float) : Float :=
  match f with NaN => Finite v | _ => f end.

Definition fillna (v : Q) (s : list Float) : list Float := map (fill v) s.

(** The returns that [run_backtest] gives to the report:
    [pd.Series(strategy.portfolio_values, ...).pct_change().fillna(0)]. *)
Definition returns (results : Strategy * Broker) : list Float :=
  fillna 0 (pct_change (portfolio_values (fst results))).

(** A return of a portfolio that cannot be worth less than nothing: a finite
    loss of 100% at most, or an infinite gain from a value of zero. *)
Definition no_worse_than_total_loss (f : Float) : Prop :=
  match f with
  | Finite r => - (1) <= r
  | PosInf => True
  | NegInf | NaN => False
  end.

(** ** [fetch_stock_data] *)

(** A timestamp as pandas has it: a point in time, or NaT.  Every ordered
    comparison with NaT is false. *)
Inductive Stamp : Set :=
| NaT
| At (z : Z).

Definition stamp_le (a b : Stamp) : bool :=
  match a, b with
  | At x, At y => (x <=? y)%Z
  | _, _ => false
  end.

Definition stamp_gt (a b : Stamp) : bool :=
  match a, b with
  | At x, At y => (y <? x)%Z
  | _, _ => false
  end.

(** The two period suffixes, and sample arguments. *)
Module Literal.
Import Ascii String.
Definition y : ascii := "y"%char.
Definition m : ascii := "m"%char.
Definition one_year : string := "1y"%string.
Definition six_months : string := "6m"%string.
Definition one_day : string := "1d"%string.
Definition jan_1 : string := "20250101"%string.
Definition jul_1 : string := "20250701"%string.
End Literal.

(** [s.endswith(c)] for a one-character suffix, and [s[:-1]]. *)
Fixpoint last_char (s : String.string) : option Ascii.ascii :=
  match s with
  | String.EmptyString => None
  | String.String c rest =>
      match rest with
      | String.EmptyString => Some c
      | String.String _ _ => last_char rest
      end
  end.

Definition endswith (s : String.string) (c : Ascii.ascii) : bool :=
  match last_char s with
  | Some c' => Ascii.eqb c' c
  | None => false
  end.

Fixpoint but_last (s : String.string) : String.string :=
  match s with
  | String.EmptyString => String.EmptyString
  | String.String c rest =>
      match rest with
      | String.EmptyString => String.EmptyString
      | String.String _ _ => String.String c (but_last rest)
      end
  end.

(** [frame[(frame.index >= start) & (frame.index <= end)]]. *)
Definition in_range (start stop : Stamp) (row : Bar) : bool :=
  stamp_le start (At (datetime row)) && stamp_le (At (datetime row)) stop.

(** [frame.sort_index()]: ascending by date. *)
Fixpoint insert_row (row : Bar) (sorted : list Bar) : list Bar :=
  match sorted with
  | [] => [row]
  | x :: rest =>
      if (datetime row <=? datetime x)%Z then row :: sorted
      else x :: insert_row row rest
  end.

Definition sort_index (frame : list Bar) : list Bar := fold_right insert_row [] frame.

Inductive Fetched : Type :=
| AssertionError
| Returned (frame : option (list Bar)).

Section Fetch.

(** What the function takes from Python and pandas: [int(s)] and
    [pd.Timestamp(s)], which give [None] when they raise; the current time;
    [now - pd.DateOffset(years=n)] and [now - pd.DateOffset(months=n)], which
    give [None] when they raise; and the date bounds that the comparison with
    the index makes of [start_date] and [end_date] when they are used as they
    were passed, [None] again when it raises. *)
Variable int : String.string -> option Z.
Variable Timestamp : String.string -> option Stamp.
Variable now : Z.
Variable years_before : Z -> Z -> option Stamp.
Variable months_before : Z -> Z -> option Stamp.
Variable as_passed : option String.string -> option String.string -> option (Stamp * Stamp).

(** The range of dates to keep; [None] when an exception is raised on the
    way. *)
Definition date_range (period start_date end_date : option String.string)
  : option (Stamp * Stamp) :=
  match period with
  | Some s =>
      if endswith s Literal.y then
        match int (but_last s) with
        | Some years =>
            match years_before now years with
            | Some start => Some (start, At now)
            | None => None
            end
        | None => None
        end
      else if endswith s Literal.m then
        match int (but_last s) with
        | Some months =>
            match months_before now months with
            | Some start => Some (start, At now)
            | None => None
            end
        | None => None
        end
      else as_passed start_date end_date
  | None =>
      match start_date, end_date with
      | Some sd, Some ed =>
          match Timestamp sd, Timestamp ed with
          | Some start, Some stop =>
              if stamp_gt start stop then None   (* ValueError *)
              else Some (start, stop)
          | _, _ => None
          end
      | _, _ => None
      end
  end.

(** [stock_data] is the frame as loaded from the cache or from the remote
    source and indexed by date, [None] when loading or parsing raised.  Rows
    whose date is NaT pass no range and are left out of the model. *)
Definition fetch_stock_data (stock_data : option (list Bar))
    (period start_date end_date : option String.string) : Fetched :=
  match period, start_date, end_date with
  | None, None, _ | None, _, None => AssertionError
  | _, _, _ =>
      Returned
        match stock_data with
        | None => None
        | Some frame =>
            match date_range period start_date end_date with
            | None => None
            | Some (start, stop) =>
                Some (sort_index (filter (in_range start stop) frame))
            end
        end
  end.

End Fetch.

Definition by_date (a b : Bar) : Prop := (datetime a <= datetime b)%Z.

(** Days of 2025 counted from the first of January, for the samples. *)
Module Sample.
Import String.
Definition int (s : string) : option Z :=
  if String.eqb s "1" then Some 1%Z else if String.eqb s "6" then Some 6%Z else None.
Definition Timestamp (s : string) : option Stamp :=
  if String.eqb s Literal.jan_1 then Some (At 1)
  else if String.eqb s Literal.jul_1 then Some (At 182)
  else None.
Definition now : Z := 200.
Definition years_before (t n : Z) : option Stamp := Some (At (t - 365 * n)).
Definition months_before (t n : Z) : option Stamp := Some (At (t - 30 * n)).
Definition as_passed (a b : option string) : option (Stamp * Stamp) := None.
Definition fetch :=
  fetch_stock_data int Timestamp now years_before months_before as_passed.
Definition frame : list Bar :=
  [flat_bar 190 12; flat_bar 3 10; flat_bar 150 11; flat_bar (-400) 9].
End Sample.

(** ** The position size on binary64 *)

(** The statements of [next] that compute the size, on the floats of the
    program: [*] and [/] round to the nearest binary64, [/] raises on a zero
    divisor, and [int] truncates toward zero and raises on an infinity
    ([OverflowError]) and on a NaN ([ValueError]). *)
Module Binary64.
Import PrimFloat FloatOps SpecFloat.
#[local] Set Warnings "-inexact-float".

Definition int (x : float) : Exc Z :=
  match Prim2SF x with
  | S754_zero _ => Return 0%Z
  | S754_finite negative m e =>
      let magnitude :=
        match e with
        | Z0 => Zpos m
        | Zpos k => Z.shiftl (Zpos m) (Zpos k)
        | Zneg k => Z.shiftr (Zpos m) (Zpos k)
        end in
      Return (if negative then (- magnitude)%Z else magnitude)
  | S754_infinity _ => Raise OverflowError
  | S754_nan => Raise ValueError
  end.

(** The constants [0] and [1.01] of the source. *)
Definition f0 : float := 0%float.
Definition buffer : float := 1.01%float.

Definition truediv (a b : float) : Exc float :=
  if PrimFloat.eqb b f0 then Raise ZeroDivisionError else Return (a / b)%float.

Definition position_size (risk_percent equity c : float) : Exc (option Z) :=
  let risk_amount := (equity * risk_percent)%float in
  if PrimFloat.ltb f0 c then
    q <- truediv risk_amount (c * buffer)%float ;;
    n <- int q ;;
    Return (Some (Z.max 1 n))
  else Return None.

(** The floats of the samples. *)
Definition two_percent : float := 0.02%float.
Definition f909 : float := 909%float.
Definition f3 : float := 3%float.
Definition f100000 : float := 100000%float.
Definition f10 : float := 10%float.

End Binary64.

(** * Properties *)

(** ** Numbers *)

Lemma Qlt_bool_iff (x y : Q) : Qlt_bool x y = true <-> x < y.
Proof.
  unfold Qlt_bool. rewrite negb_true_iff, <- not_true_iff_false, Qle_bool_iff.
  split; [apply Qnot_le_lt | apply Qlt_not_le].
Qed.

Lemma Qlt_bool_false (x y : Q) : Qlt_bool x y = false <-> y <= x.
Proof.
  unfold Qlt_bool. rewrite negb_false_iff. apply Qle_bool_iff.
Qed.

(** Truncation and floor differ only below zero, where [max 1] hides both. *)
Lemma max_one_int_floor (q : Q) : Z.max 1 (py_int q) = Z.max 1 (Qfloor q).
Proof.
  destruct q as [n d]. unfold py_int, Qfloor. simpl.
  destruct (Z_lt_le_dec n 0) as [Hneg | Hpos].
  - assert (Z.quot n (Zpos d) <= 0)%Z.
    { replace n with (- - n)%Z by lia. rewrite Z.quot_opp_l by lia.
      assert (0 <= Z.quot (- n) (Zpos d))%Z by (apply Z.quot_pos; lia). lia. }
    assert (n / Zpos d < 0)%Z by (apply Z.div_lt_upper_bound; lia).
    lia.
  - rewrite Z.quot_div_nonneg by lia. reflexivity.
Qed.

(** ** The position sizer *)

Lemma position_size_eq (p : Params) (e c : Q) :
  position_size p e c =
  if Qlt_bool 0 c
  then Return (Some (Z.max 1 (Qfloor (e * risk_percent p / (c * (101 # 100))))))
  else Return None.
Proof.
  unfold position_size. destruct (Qlt_bool 0 c) eqn:Hc; [| reflexivity].
  apply Qlt_bool_iff in Hc. unfold py_div.
  destruct (Qeq_bool (c * (101 # 100)) 0) eqn:Hz.
  - apply Qeq_bool_iff in Hz. exfalso. lra.
  - simpl. now rewrite max_one_int_floor.
Qed.

Lemma next_returns (p : Params) (d : Bar) (l : Lines) (self : Strategy) (b : Broker) :
  exists st, next p d l self b = Return st.
Proof.
  unfold next. destruct (order self); [eauto |].
  destruct (position b =? 0)%Z.
  - destruct (any _); [| eauto]. rewrite position_size_eq.
    destruct (Qlt_bool 0 (close d)); simpl; eauto.
  - destruct (any _); simpl; eauto.
Qed.

Lemma step_returns (p : Params) (len : nat) (t : Tick) (st : Strategy * Broker) :
  exists st', step p len t st = Return st'.
Proof.
  unfold step. destruct st as [self b]. destruct (broker_next _ _ _).
  apply next_returns.
Qed.

Lemma run_returns (p : Params) (ticks : list Tick) :
  forall len st, exists st', run p len ticks st = Return st'.
Proof.
  induction ticks as [| t rest IH]; intros len st; simpl; [eauto |].
  destruct (step_returns p (S len) t st) as [st1 ->]. simpl. apply IH.
Qed.

(** ** Signals *)

Lemma any_buy_iff (p : Params) (l : Lines) (c : Q) :
  any (buy_conditions p l c) = true <-> buy_signal p l c.
Proof.
  unfold any, buy_conditions, buy_signal, crosses_above. simpl.
  rewrite !orb_true_iff, !andb_true_iff. intuition discriminate.
Qed.

Lemma any_sell_iff (p : Params) (l : Lines) (c : Q) :
  any (sell_conditions p l c) = true <-> sell_signal p l c.
Proof.
  unfold any, sell_conditions, sell_signal, crosses_below. simpl.
  rewrite !orb_true_iff, !andb_true_iff. intuition discriminate.
Qed.

Lemma vlt_undefined (a b : Value) : a = None \/ b = None -> vlt a b = false.
Proof.
  intros [-> | ->]; [reflexivity | destruct a; reflexivity].
Qed.

Lemma no_cross_above (a_1 b_1 a_0 b_0 : Value) :
  a_1 = None \/ b_1 = None \/ a_0 = None \/ b_0 = None ->
  vlt a_1 b_1 && vgt a_0 b_0 = false.
Proof.
  unfold vgt. intros [H | [H | [H | H]]]; apply andb_false_iff;
    solve [ left; apply vlt_undefined; auto | right; apply vlt_undefined; auto ].
Qed.

Lemma no_cross_below (a_1 b_1 a_0 b_0 : Value) :
  a_1 = None \/ b_1 = None \/ a_0 = None \/ b_0 = None ->
  vgt a_1 b_1 && vlt a_0 b_0 = false.
Proof.
  unfold vgt. intros [H | [H | [H | H]]]; apply andb_false_iff;
    solve [ left; apply vlt_undefined; auto | right; apply vlt_undefined; auto ].
Qed.

(** C5. A crossover entry of the buy or sell conditions (MACD against its
    signal line, slowK against slowD) is false as soon as one of the four
    values it reads, current or previous, is undefined; with every indicator
    undefined no condition holds, and [next] creates no order. *)
Theorem crossover_needs_history (p : Params) (d : Bar) (l : Lines)
    (self : Strategy) (b : Broker) :
  let i := ind l in
  let c := close d in
  (macd_1 i = None \/ macdsignal_1 i = None \/ macd_0 i = None \/ macdsignal_0 i = None ->
     nth 0 (buy_conditions p l c) false = false
     /\ nth 0 (sell_conditions p l c) false = false)
  /\ (slowk_1 i = None \/ slowd_1 i = None \/ slowk_0 i = None \/ slowd_0 i = None ->
     nth 2 (buy_conditions p l c) false = false
     /\ nth 2 (sell_conditions p l c) false = false)
  /\ (i = undefined ->
     any (buy_conditions p l c) = false /\ any (sell_conditions p l c) = false
     /\ forall o, ~ creates self b (next p d l self b) o).
Proof.
  intros i c. split; [| split].
  - intros H. split; [now apply no_cross_above | now apply no_cross_below].
  - intros H. split; [now apply no_cross_above | now apply no_cross_below].
  - intros Hi.
    assert (Hb : any (buy_conditions p l c) = false)
      by (unfold buy_conditions; fold i; rewrite Hi; reflexivity).
    assert (Hs : any (sell_conditions p l c) = false)
      by (unfold sell_conditions; fold i; rewrite Hi; reflexivity).
    repeat split; trivial.
    intros o [Hnone [self' [b' [Hr [Ho _]]]]]. unfold next in Hr. rewrite Hnone in Hr.
    fold c in Hr. rewrite Hb, Hs in Hr.
    destruct (position b =? 0)%Z; inversion Hr; subst; simpl in Ho; congruence.
Qed.

Lemma crossover_needs_history_witness :
  let l := {| ind := Build_Indicators None (Some 1) (Some 0) (Some 0) (Some 50)
                       (Some 20) (Some 30) None (Some 25) (Some 5) (Some 15);
              j_0 := None |} in
  let d := {| datetime := 0; open := 10; high := 10; low := 10; close := 10; volume := 1 |} in
  nth 0 (buy_conditions params l (close d)) false = false
  /\ nth 2 (sell_conditions params l (close d)) false = false
  /\ any (buy_conditions params (init_lines undefined) (close d)) = false.
Proof.
  intros l d.
  destruct (crossover_needs_history params d l init (new_broker 100000 (1 # 1000)))
    as [Hm [Hk _]].
  destruct (crossover_needs_history params d (init_lines undefined) init
              (new_broker 100000 (1 # 1000))) as [_ [_ Hu]].
  split; [apply Hm; left; reflexivity |].
  split; [apply Hk; right; left; reflexivity |].
  apply Hu. reflexivity.
Defined.

(** ** [next], case by case *)

Lemma next_pending (p : Params) (d : Bar) (l : Lines) (self : Strategy) (b : Broker) :
  order self <> None -> next p d l self b = Return (self, b).
Proof.
  unfold next. destruct (order self); [reflexivity | congruence].
Qed.

Lemma next_flat (p : Params) (d : Bar) (l : Lines) (self : Strategy) (b : Broker) :
  order self = None -> position b = 0%Z ->
  let c := close d in
  next p d l self b =
  if any (buy_conditions p l c) then
    if Qlt_bool 0 c then
      let n := Z.max 1 (Qfloor (getvalue b c * risk_percent p / (c * (101 # 100)))) in
      Return (record_value (set_order (log self (BUY_CREATE c)) (Some (new_order Buy n)))
                (getvalue b c) (datetime d),
              snd (buy b n))
    else Return (log (log self (BUY_CREATE c)) Invalid_price_data, b)
  else Return (record_value self (getvalue b c) (datetime d), b).
Proof.
  intros Ho Hflat c. unfold next. rewrite Ho, Hflat, Z.eqb_refl. fold c.
  destruct (any (buy_conditions p l c)); [| reflexivity].
  rewrite position_size_eq. destruct (Qlt_bool 0 c); reflexivity.
Qed.

Lemma next_long (p : Params) (d : Bar) (l : Lines) (self : Strategy) (b : Broker) :
  order self = None -> position b <> 0%Z ->
  let c := close d in
  next p d l self b =
  if any (sell_conditions p l c) then
    Return (record_value
              (set_order (log self (SELL_CREATE c)) (Some (new_order Sell (position b))))
              (getvalue b c) (datetime d),
            snd (sell b (position b)))
  else Return (record_value self (getvalue b c) (datetime d), b).
Proof.
  intros Ho Hlong c. unfold next. rewrite Ho.
  apply Z.eqb_neq in Hlong. rewrite Hlong. fold c.
  destruct (any (sell_conditions p l c)); reflexivity.
Qed.

(** C2, as the code has it, on the floats of the program.  For a price
    [c > 0] the sizer returns [max(1, int(q))], a positive integer, where [q]
    is the quotient [equity * risk_percent / (c * 1.01)] as binary64 computes
    it, whenever [int(q)] returns; it gives no other answer.  When [c > 0]
    does not hold the sizer gives no size.  On a bar whose close is not
    positive [next], called on a flat position, creates no order (the
    strategy's slot and the broker are as before), and the bar does not stop
    the run: the step returns and the run goes on with the bars that
    follow. *)
Theorem position_sizer_contract (r e c : PrimFloat.float) (p : Params) :
  let q := PrimFloat.div (PrimFloat.mul e r) (PrimFloat.mul c Binary64.buffer) in
  (PrimFloat.ltb Binary64.f0 c = true ->
     (forall t, PrimFloat.eqb (PrimFloat.mul c Binary64.buffer) Binary64.f0 = false ->
                Binary64.int q = Return t ->
                Binary64.position_size r e c = Return (Some (Z.max 1 t))
                /\ (0 < Z.max 1 t)%Z)
     /\ (forall n, Binary64.position_size r e c = Return (Some n) ->
                   (1 <= n)%Z /\ exists t, Binary64.int q = Return t /\ n = Z.max 1 t)
     /\ Binary64.position_size r e c <> Return None)
  /\ (PrimFloat.ltb Binary64.f0 c = false -> Binary64.position_size r e c = Return None)
  /\ (forall d l self b,
        close d <= 0 -> position b = 0%Z ->
        exists self', next p d l self b = Return (self', b)
                      /\ order self' = order self)
  /\ (forall len t rest st,
        close (data t) <= 0 ->
        exists st1, step p (S len) t st = Return st1
                    /\ run p len (t :: rest) st = run p (S len) rest st1).
Proof.
  intros q. split; [| split; [| split]].
  - intros Hc. unfold Binary64.position_size, Binary64.truediv. rewrite Hc.
    fold q. split; [| split].
    + intros t Hz Hint. rewrite Hz. cbn [bind]. fold q. rewrite Hint. cbn [bind].
      split; [reflexivity | lia].
    + intros n.
      destruct (PrimFloat.eqb (PrimFloat.mul c Binary64.buffer) Binary64.f0); cbn [bind];
        [discriminate |].
      fold q. destruct (Binary64.int q) as [t | err]; cbn [bind]; [| discriminate].
      intros H. inversion H. split; [lia |]. now exists t.
    + destruct (PrimFloat.eqb (PrimFloat.mul c Binary64.buffer) Binary64.f0); cbn [bind];
        [discriminate |].
      fold q. destruct (Binary64.int q); cbn [bind]; discriminate.
  - intros Hc. unfold Binary64.position_size. now rewrite Hc.
  - intros d l self b Hc Hflat. apply Qlt_bool_false in Hc.
    destruct (order self) eqn:Ho.
    + rewrite next_pending by congruence. eauto.
    + rewrite (next_flat p d l self b Ho Hflat). rewrite Hc.
      destruct (any (buy_conditions p l (close d)));
        eexists; (split; [reflexivity | exact Ho]).
  - intros len t rest st Hc.
    destruct (step_returns p (S len) t st) as [st1 Hstep].
    exists st1. split; [exact Hstep |]. simpl. now rewrite Hstep.
Qed.

Lemma position_sizer_contract_witness :
  Binary64.position_size Binary64.two_percent Binary64.f100000 Binary64.f10
  = Return (Some 198%Z)
  /\ Binary64.position_size Binary64.two_percent Binary64.f100000 Binary64.f0
     = Return None.
Proof.
  destruct (position_sizer_contract Binary64.two_percent Binary64.f100000 Binary64.f10
              params) as [Hpos _].
  destruct (position_sizer_contract Binary64.two_percent Binary64.f100000 Binary64.f0
              params) as [_ [Hneg _]].
  split.
  - destruct Hpos as [Hsize _]; [reflexivity |].
    apply (Hsize 198%Z); reflexivity.
  - apply Hneg. reflexivity.
Defined.

(** C2, as the claim words it, fails on the floats of the program: with an
    equity of 909, a risk of 2% and a price of 3 the exact quotient
    [909 * 0.02 / (3 * 1.01)] is 6, and the claimed size is 6; the binary64
    quotient lies just under 6 and the code sizes 5 shares. *)
Lemma sizer_rounds_below_floor :
  Binary64.position_size Binary64.two_percent Binary64.f909 Binary64.f3
  = Return (Some 5%Z)
  /\ Z.max 1 (Qfloor (909 * (2 # 100) / (3 * (101 # 100)))) = 6%Z.
Proof.
  split; reflexivity.
Qed.

Ltac creates_inv H :=
  let self' := fresh "self'" in
  let b' := fresh "b'" in
  let Hr := fresh "Hr" in
  let Hs := fresh "Hslot" in
  let Hb := fresh "Hbook" in
  destruct H as [_ [self' [b' [Hr [Hs Hb]]]]];
  inversion Hr; subst self' b'; clear Hr; simpl in Hs, Hb.

(** C3, as the code has it.  With no order pending: on a flat position a Buy
    order is created exactly when one of the four buy conditions holds and the
    close is positive; on an open position a Sell order is created exactly
    when one of the four sell conditions holds.  No other order is created. *)
Theorem orders_follow_signals (p : Params) (d : Bar) (l : Lines)
    (self : Strategy) (b : Broker) (Hidle : order self = None) :
  let c := close d in
  let r := next p d l self b in
  (position b = 0%Z ->
     ((exists o, creates self b r o /\ side o = Buy) <-> buy_signal p l c /\ 0 < c)
     /\ forall o, creates self b r o -> side o = Buy)
  /\ (position b <> 0%Z ->
     ((exists o, creates self b r o /\ side o = Sell) <-> sell_signal p l c)
     /\ forall o, creates self b r o -> side o = Sell).
Proof.
  intros c r. split.
  - intros Hflat. subst r. rewrite (next_flat p d l self b Hidle Hflat). fold c.
    rewrite <- any_buy_iff, <- Qlt_bool_iff.
    destruct (any (buy_conditions p l c)); [destruct (Qlt_bool 0 c) |].
    + split.
      * split; [auto |]. intros _. eexists.
        split; [split; [exact Hidle | do 2 eexists; split; [reflexivity | simpl; auto]]
               | reflexivity].
      * intros o H. creates_inv H. inversion Hslot. reflexivity.
    + split.
      * split; [| intros [_ Hf]; discriminate].
        intros [o [H _]]. creates_inv H. congruence.
      * intros o H. creates_inv H. congruence.
    + split.
      * split; [| intros [Hf _]; discriminate].
        intros [o [H _]]. creates_inv H. congruence.
      * intros o H. creates_inv H. congruence.
  - intros Hlong. subst r. rewrite (next_long p d l self b Hidle Hlong). fold c.
    rewrite <- any_sell_iff.
    destruct (any (sell_conditions p l c)).
    + split.
      * split; [auto |]. intros _. eexists.
        split; [split; [exact Hidle | do 2 eexists; split; [reflexivity | simpl; auto]]
               | reflexivity].
      * intros o H. creates_inv H. inversion Hslot. reflexivity.
    + split.
      * split; [| discriminate].
        intros [o [H _]]. creates_inv H. congruence.
      * intros o H. creates_inv H. congruence.
Qed.

Lemma orders_follow_signals_witness :
  exists o, creates init (new_broker 100000 (1 # 1000))
              (next params (flat_bar 1 10) (only_rsi 10) init (new_broker 100000 (1 # 1000))) o
            /\ side o = Buy.
Proof.
  destruct (@orders_follow_signals params (flat_bar 1 10) (only_rsi 10) init
              (new_broker 100000 (1 # 1000)) eq_refl) as [Hflat _].
  destruct (Hflat eq_refl) as [Hiff _]. apply Hiff.
  split; [right; left; reflexivity | reflexivity].
Defined.

(** C3, as the claim words it, fails: on a flat position with no order pending
    the RSI is below the lower threshold, so a buy condition holds, but the
    close is zero and [next] creates no order. *)
Lemma buy_signal_without_order :
  let d := flat_bar 1 0 in
  let b := new_broker 100000 (1 # 1000) in
  order init = None /\ position b = 0%Z
  /\ buy_signal params (only_rsi 10) (close d)
  /\ ~ exists o, creates init b (next params d (only_rsi 10) init b) o.
Proof.
  intros d b. repeat split.
  - right; left; reflexivity.
  - intros [o H]. creates_inv H. discriminate.
Qed.

(** C6. On a sell signal, with a long position and no order pending, [next]
    creates a Sell order for the whole position; its fill brings the position
    back to zero.  A Buy filled from a flat position followed by the Sell of
    the position so obtained is a round trip to a flat position. *)
Theorem sell_closes_position (p : Params) (d : Bar) (l : Lines)
    (self : Strategy) (b : Broker)
    (Hidle : order self = None) (Hlong : (0 < position b)%Z)
    (Hsell : sell_signal p l (close d)) :
  (exists o self' b',
      next p d l self b = Return (self', b')
      /\ order self' = Some o /\ orders b' = orders b ++ [o]
      /\ side o = Sell /\ size o = position b
      /\ forall px,
           status (snd (execute px b' o)) = Completed
           /\ position (fst (execute px b' o)) = 0%Z)
  /\ (forall px px' n flat,
        position flat = 0%Z ->
        let bought := fst (execute px flat (new_order Buy n)) in
        position (fst (execute px' bought (new_order Sell (position bought)))) = 0%Z).
Proof.
  split.
  - assert (Hne : position b <> 0%Z) by lia.
    rewrite (next_long p d l self b Hidle Hne).
    apply any_sell_iff in Hsell. rewrite Hsell.
    do 3 eexists. split; [reflexivity |]. simpl.
    repeat split; try reflexivity. simpl. lia.
  - intros px px' n flat Hflat bought. simpl. lia.
Qed.

(** The sample run: a Buy of 198 shares is created on the first bar and filled
    at the open of the second, where the Sell of the 198 shares is created; it
    is filled at the open of the third bar, which ends flat.  All three bars
    are recorded. *)
Example round_trip_run :
  exists self b,
    run params 0 sample_ticks (init, new_broker 100000 (1 # 1000)) = Return (self, b)
    /\ position b = 0%Z /\ orders b = [] /\ order self = None
    /\ buyprice self = Some 12
    /\ length (portfolio_values self) = 3%nat.
Proof.
  do 2 eexists. split; [vm_compute; reflexivity |]. repeat split.
Qed.

(** A Buy of 10 shares filled at 100 with a commission rate of 0.001 costs
    10 * 100 * 1.001. *)
Example buy_fill_cash :
  cash (fst (execute 100 (new_broker 100000 (1 # 1000)) (new_order Buy 10)))
  == 100000 - 10 * 100 * (1001 # 1000).
Proof. reflexivity. Qed.

Lemma sell_closes_position_witness :
  let b := {| cash := 0; position := 5; commission := 1 # 1000; orders := [] |} in
  exists o self' b',
    next params (flat_bar 2 10) (only_rsi 80) init b = Return (self', b')
    /\ order self' = Some o /\ size o = 5%Z
    /\ position (fst (execute 10 b' o)) = 0%Z.
Proof.
  intros b.
  destruct (@sell_closes_position params (flat_bar 2 10) (only_rsi 80) init b)
    as [[o [self' [b' [Hr [Hs [_ [_ [Hn Hfill]]]]]]]] _].
  - reflexivity.
  - reflexivity.
  - right; left; reflexivity.
  - exists o, self', b'. repeat split; trivial. apply Hfill.
Defined.

(** ** The performance record *)

Lemma next_record_bound (p : Params) (d : Bar) (l : Lines) (self : Strategy) (b : Broker) :
  exists st k, next p d l self b = Return st
    /\ (k <= 1)%nat
    /\ length (portfolio_values (fst st)) = (length (portfolio_values self) + k)%nat
    /\ length (dates (fst st)) = (length (dates self) + k)%nat.
Proof.
  unfold next. destruct (order self).
  { exists (self, b), 0%nat. simpl. repeat split; lia. }
  destruct (position b =? 0)%Z.
  - destruct (any _).
    + rewrite position_size_eq. destruct (Qlt_bool 0 (close d)); simpl.
      * eexists. exists 1%nat. split; [reflexivity |]. simpl. rewrite !length_app.
        simpl. repeat split; lia.
      * eexists. exists 0%nat. split; [reflexivity |]. simpl. repeat split; lia.
    + eexists. exists 1%nat. split; [reflexivity |]. simpl. rewrite !length_app.
      simpl. repeat split; lia.
  - destruct (any _); simpl; eexists; exists 1%nat; (split; [reflexivity |]); simpl;
      rewrite !length_app; simpl; repeat split; lia.
Qed.

Lemma notify_all_keeps_record (len : nat) (notes : list Order) :
  forall self,
    portfolio_values (notify_all len notes self) = portfolio_values self
    /\ dates (notify_all len notes self) = dates self.
Proof.
  unfold notify_all. induction notes as [| o rest IH]; intros self; simpl; [auto |].
  destruct (IH (notify_order len o self)) as [-> ->].
  unfold notify_order. destruct (status o); simpl; auto; destruct (isbuy o); simpl; auto.
Qed.

Lemma run_record_bound (p : Params) (ticks : list Tick) :
  forall len self b,
    length (dates self) = length (portfolio_values self) ->
    exists self' b', run p len ticks (self, b) = Return (self', b')
      /\ (length (portfolio_values self')
          <= length (portfolio_values self) + length ticks)%nat
      /\ length (dates self') = length (portfolio_values self').
Proof.
  induction ticks as [| t rest IH]; intros len self b Hlen; simpl.
  - do 2 eexists. split; [reflexivity |]. lia.
  - destruct (broker_next (event t) (data t) b) as [b1 notes] eqn:Hb.
    destruct (notify_all_keeps_record (S len) notes self) as [Hpv Hdt].
    destruct (next_record_bound p (data t) (lines t) (notify_all (S len) notes self) b1)
      as [[self1 b2] [k [Hr [Hk [Hle Heq]]]]].
    rewrite Hr. simpl in *. rewrite Hpv in Hle. rewrite Hdt in Heq.
    destruct (IH (S len) self1 b2) as [self' [b' [Hrun [Hle' Heq']]]]; [lia |].
    exists self', b'. split; [exact Hrun |]. split; lia.
Qed.

(** C1, as the code has it.  A call of [next] that finds no order pending and
    whose position sizer does not fail appends exactly one record, the bar's
    timestamp and cash + position.size * close, whether or not a condition
    holds or an order is created; a call that finds an order pending returns
    at once and appends nothing.  A run from the initial state over n bars
    therefore leaves at most n records, timestamps and values in step. *)
Theorem next_appends_one_record (p : Params) (d : Bar) (l : Lines)
    (self : Strategy) (b : Broker) :
  let c := close d in
  (order self = None ->
   ~ (position b = 0%Z /\ buy_signal p l c /\ c <= 0) ->
   exists self' b',
     next p d l self b = Return (self', b')
     /\ portfolio_values self'
        = portfolio_values self ++ [cash b + inject_Z (position b) * c]
     /\ dates self' = dates self ++ [datetime d])
  /\ (order self <> None -> next p d l self b = Return (self, b))
  /\ (forall len ticks startcash rate,
        exists self' b',
          run p len ticks (init, new_broker startcash rate) = Return (self', b')
          /\ (length (portfolio_values self') <= length ticks)%nat
          /\ length (dates self') = length (portfolio_values self')).
Proof.
  intros c. split; [| split].
  - intros Hidle Hsizer.
    destruct (Z.eq_dec (position b) 0) as [Hflat | Hlong].
    + rewrite (next_flat p d l self b Hidle Hflat). fold c.
      destruct (any (buy_conditions p l c)) eqn:Hany.
      * destruct (Qlt_bool 0 c) eqn:Hc.
        -- do 2 eexists. split; [reflexivity |]. split; reflexivity.
        -- exfalso. apply Hsizer. split; [exact Hflat |].
           split; [now apply any_buy_iff | now apply Qlt_bool_false].
      * do 2 eexists. split; [reflexivity |]. split; reflexivity.
    + rewrite (next_long p d l self b Hidle Hlong). fold c.
      destruct (any (sell_conditions p l c));
        do 2 eexists; (split; [reflexivity |]); split; reflexivity.
  - apply next_pending.
  - intros len ticks startcash rate.
    destruct (run_record_bound p ticks len init (new_broker startcash rate) eq_refl)
      as [self' [b' [Hrun [Hle Heq]]]].
    exists self', b'. simpl in Hle. auto.
Qed.

Lemma next_appends_one_record_witness :
  exists self' b',
    next params (flat_bar 1 10) (only_rsi 50) init (new_broker 100000 (1 # 1000))
      = Return (self', b')
    /\ portfolio_values self' = [100000 + inject_Z 0 * 10]
    /\ dates self' = [1%Z].
Proof.
  destruct (next_appends_one_record params (flat_bar 1 10) (only_rsi 50) init
              (new_broker 100000 (1 # 1000))) as [Hrec _].
  apply Hrec.
  - reflexivity.
  - intros [_ [_ Hc]]. revert Hc. apply Qlt_not_le. reflexivity.
Defined.

(** C1, as the claim words it, fails: two bars are simulated, the first
    creates a Buy order and is recorded, the second finds the order still
    pending and is not recorded. *)
Lemma pending_bar_is_not_recorded :
  let b := new_broker 100000 (1 # 1000) in
  exists self1 b1,
    next params (flat_bar 1 10) (only_rsi 10) init b = Return (self1, b1)
    /\ order self1 <> None
    /\ next params (flat_bar 2 10) (only_rsi 50) self1 b1 = Return (self1, b1)
    /\ length (portfolio_values self1) = 1%nat.
Proof.
  intros b. do 2 eexists. split; [reflexivity |].
  split; [discriminate |]. split; reflexivity.
Qed.

(** ** The J line *)

Lemma step_with_j (p : Params) (f : Tick -> Value) (len : nat) (t : Tick)
    (st : Strategy * Broker) :
  step p len (with_j f t) st = step p len t st.
Proof. reflexivity. Qed.

(** C10. The J line is not read: [next] gives the same result whatever the
    value on the J line, and a run gives the same results (orders, records,
    broker) when the J values of its bars are replaced by any others, the J of
    [__init__] or none at all. *)
Theorem j_line_is_not_read (p : Params) :
  (forall d i j j' self b,
     next p d {| ind := i; j_0 := j |} self b = next p d {| ind := i; j_0 := j' |} self b)
  /\ (forall f ticks len st,
        run p len (map (with_j f) ticks) st = run p len ticks st)
  /\ (forall i f t, ind (lines (with_j f t)) = ind (lines t)
                    /\ j_0 (lines (with_j f t)) = f t
                    /\ j_0 (init_lines i) = vlin 3 (slowk_0 i) 2 (slowd_0 i)).
Proof.
  split; [reflexivity | split].
  - intros f ticks. induction ticks as [| t rest IH]; intros len st; simpl; [reflexivity |].
    rewrite step_with_j. destruct (step p (S len) t st); simpl; [apply IH | reflexivity].
  - intros. repeat split.
Qed.

(** ** One order at a time *)

Lemma notify_order_slot (len : nat) (o : Order) (self : Strategy) :
  order (notify_order len o self) =
  match status o with
  | Submitted | Accepted => order self
  | Completed | Canceled | Margin | Rejected => None
  end.
Proof.
  unfold notify_order. destruct (status o); reflexivity.
Qed.

Lemma execute_status (px : Q) (b : Broker) (o : Order) :
  status (snd (execute px b o)) = Completed \/ status (snd (execute px b o)) = Margin.
Proof.
  unfold execute. destruct (side o); [| now left].
  destruct (Qle_bool _ _); simpl; auto.
Qed.

Lemma execute_book (px : Q) (b : Broker) (o : Order) :
  orders (fst (execute px b o)) = orders b.
Proof.
  unfold execute. destruct (side o); [| reflexivity].
  destruct (Qle_bool _ _); reflexivity.
Qed.

Lemma broker_turn_mirrors (len : nat) (ev : BrokerEvent) (d : Bar)
    (self : Strategy) (b : Broker) :
  slot_mirrors_book (self, b) ->
  slot_mirrors_book (notify_all len (snd (broker_next ev d b)) self,
                     fst (broker_next ev d b)).
Proof.
  unfold slot_mirrors_book, broker_next, notify_all. cbn [fst snd]. intros H.
  destruct (order self) as [o |] eqn:Ho.
  - destruct ev; rewrite H; cbn -[notify_order execute].
    + rewrite notify_order_slot. cbn. now rewrite Ho.
    + pose proof (execute_status (open d) (clear_orders b) o) as Hst.
      pose proof (execute_book (open d) (clear_orders b) o) as Hbk.
      destruct (execute (open d) (clear_orders b) o) as [b1 done].
      cbn -[notify_order] in *. rewrite !notify_order_slot.
      destruct Hst as [-> | ->]; exact Hbk.
    + rewrite notify_order_slot. reflexivity.
    + rewrite notify_order_slot. reflexivity.
  - destruct ev; rewrite H; cbn; rewrite Ho; auto.
Qed.

Lemma next_mirrors (p : Params) (d : Bar) (l : Lines) (self : Strategy) (b : Broker) :
  slot_mirrors_book (self, b) ->
  exists st, next p d l self b = Return st /\ slot_mirrors_book st.
Proof.
  intros H. destruct (order self) as [o |] eqn:Ho.
  - rewrite next_pending by congruence. eauto.
  - unfold slot_mirrors_book in H. simpl in H. rewrite Ho in H.
    destruct (Z.eq_dec (position b) 0) as [Hflat | Hlong].
    + rewrite (next_flat p d l self b Ho Hflat).
      destruct (any _); [destruct (Qlt_bool _ _) |]; eexists; (split; [reflexivity |]);
        unfold slot_mirrors_book; simpl; rewrite ?Ho, ?H; reflexivity.
    + rewrite (next_long p d l self b Ho Hlong).
      destruct (any _); eexists; (split; [reflexivity |]);
        unfold slot_mirrors_book; simpl; rewrite ?Ho, ?H; reflexivity.
Qed.

Lemma step_mirrors (p : Params) (len : nat) (t : Tick) (st : Strategy * Broker) :
  slot_mirrors_book st ->
  exists st', step p len t st = Return st' /\ slot_mirrors_book st'.
Proof.
  destruct st as [self b]. intros H. unfold step.
  pose proof (@broker_turn_mirrors len (event t) (data t) self b H) as Hturn.
  destruct (broker_next (event t) (data t) b) as [b1 notes]. simpl in Hturn.
  now apply next_mirrors.
Qed.

Lemma run_mirrors (p : Params) (ticks : list Tick) :
  forall len st,
    slot_mirrors_book st ->
    exists st', run p len ticks st = Return st' /\ slot_mirrors_book st'.
Proof.
  induction ticks as [| t rest IH]; intros len st H; simpl; [eauto |].
  destruct (@step_mirrors p (S len) t st H) as [st1 [-> H1]]. simpl. now apply IH.
Qed.

(** C4. In every state that a run reaches from the start, over any bars and
    any behaviour of the broker, the broker holds one order at most, and it is
    the one in the strategy's slot.  While the slot is taken [next] changes
    nothing, whatever the signals; [notify_order] leaves the slot as it is on
    Submitted and Accepted and empties it on Completed, Canceled, Margin and
    Rejected. *)
Theorem one_order_at_a_time (p : Params) :
  (forall len ticks startcash rate,
     exists self b,
       run p len ticks (init, new_broker startcash rate) = Return (self, b)
       /\ (length (orders b) <= 1)%nat
       /\ slot_mirrors_book (self, b))
  /\ (forall d l self b o,
        next p d l (set_order self (Some o)) b = Return (set_order self (Some o), b))
  /\ (forall len o self,
        order (notify_order len o self) =
        match status o with
        | Submitted | Accepted => order self
        | Completed | Canceled | Margin | Rejected => None
        end).
Proof.
  split; [| split].
  - intros len ticks startcash rate.
    destruct (@run_mirrors p ticks len (init, new_broker startcash rate)) as [[self b] [Hr H]].
    { reflexivity. }
    exists self, b. split; [exact Hr |]. split; [| exact H].
    unfold slot_mirrors_book in H. simpl in H.
    destruct (order self); rewrite H; simpl; lia.
  - reflexivity.
  - apply notify_order_slot.
Qed.

(** ** Solvency *)

Lemma nonneg_value (z : Z) (c : Q) : (0 <= z)%Z -> 0 <= c -> 0 <= inject_Z z * c.
Proof.
  intros Hz Hc. apply Qmult_le_0_compat; [| exact Hc].
  change 0 with (inject_Z 0). now rewrite <- Zle_Qle.
Qed.

Lemma execute_solvent (px : Q) (b : Broker) (o : Order) :
  0 <= px -> fair_commission b -> 0 <= cash b -> (0 <= position b)%Z ->
  match side o with Buy => (1 <= size o)%Z | Sell => size o = position b end ->
  0 <= cash (fst (execute px b o))
  /\ (0 <= position (fst (execute px b o)))%Z
  /\ commission (fst (execute px b o)) = commission b.
Proof.
  intros Hpx [Hlo Hhi] Hcash Hpos Hshape. unfold execute.
  destruct (side o).
  - destruct (Qle_bool _ _) eqn:Hafford; simpl.
    + apply Qle_bool_iff in Hafford. repeat split; [lra | lia].
    + auto.
  - simpl. rewrite Hshape.
    assert (Hv : 0 <= inject_Z (position b) * px) by now apply nonneg_value.
    repeat split; [| lia].
    set (v := inject_Z (position b) * px) in *.
    assert (v * commission b <= v) by nra.
    lra.
Qed.

Lemma solvent_intro (self : Strategy) (b : Broker) :
  0 <= cash b -> (0 <= position b)%Z ->
  Forall (fun v => 0 <= v) (portfolio_values self) ->
  (forall o, In o (orders b) ->
     match side o with Buy => (1 <= size o)%Z | Sell => size o = position b end) ->
  solvent (self, b).
Proof.
  intros. unfold solvent. simpl. auto.
Qed.

Lemma broker_turn_solvent (len : nat) (ev : BrokerEvent) (d : Bar)
    (self : Strategy) (b : Broker) :
  slot_mirrors_book (self, b) -> solvent (self, b) -> fair_commission b ->
  0 <= open d ->
  solvent (notify_all len (snd (broker_next ev d b)) self, fst (broker_next ev d b))
  /\ fair_commission (fst (broker_next ev d b)).
Proof.
  intros Hm [Hcash [Hpos [Hpv Hshape]]] Hfair Hopen. simpl in Hcash, Hpos, Hpv, Hshape.
  assert (Hrec : forall notes,
             Forall (fun v => 0 <= v) (portfolio_values (notify_all len notes self))).
  { intros notes. destruct (notify_all_keeps_record len notes self) as [-> _]. exact Hpv. }
  destruct ev; cbn [broker_next fst snd].
  - split; [| exact Hfair]. now apply solvent_intro.
  - unfold slot_mirrors_book in Hm. simpl in Hm.
    destruct (order self) as [o |].
    + rewrite Hm in *. cbn [execute_all].
      assert (Ho : match side o with
                   | Buy => (1 <= size o)%Z
                   | Sell => size o = position (clear_orders b)
                   end) by (apply Hshape; now left).
      destruct (@execute_solvent (open d) (clear_orders b) o Hopen Hfair Hcash Hpos Ho)
        as [Hc [Hp Hk]].
      pose proof (execute_book (open d) (clear_orders b) o) as Hbk.
      destruct (execute (open d) (clear_orders b) o) as [b1 done].
      cbn [fst snd] in *.
      split.
      * apply solvent_intro; [exact Hc | exact Hp | apply Hrec |].
        rewrite Hbk. intros ? [].
      * unfold fair_commission. now rewrite Hk.
    + rewrite Hm. cbn [execute_all fst snd].
      split; [| exact Hfair]. apply solvent_intro; auto. intros ? [].
  - split; [| exact Hfair]. apply solvent_intro; auto. intros ? [].
  - split; [| exact Hfair]. apply solvent_intro; auto. intros ? [].
Qed.

Lemma next_solvent (p : Params) (d : Bar) (l : Lines) (self : Strategy) (b : Broker) :
  slot_mirrors_book (self, b) -> solvent (self, b) -> fair_commission b ->
  0 <= close d ->
  exists st, next p d l self b = Return st
             /\ slot_mirrors_book st /\ solvent st /\ fair_commission (snd st).
Proof.
  intros Hm [Hcash [Hpos [Hpv Hshape]]] Hfair Hclose.
  simpl in Hcash, Hpos, Hpv, Hshape.
  destruct (next_mirrors p d l self b Hm) as [st [Hr Hm']].
  exists st. split; [exact Hr |]. split; [exact Hm' |]. clear Hm'.
  assert (Hval : 0 <= getvalue b (close d)).
  { unfold getvalue. pose proof (nonneg_value _ _ Hpos Hclose). lra. }
  assert (Hpv' : Forall (fun v => 0 <= v) (portfolio_values self ++ [getvalue b (close d)])).
  { apply Forall_app. split; [exact Hpv | now constructor]. }
  destruct (order self) as [o |] eqn:Ho.
  - rewrite next_pending in Hr by congruence. inversion Hr; subst st.
    split; [now apply solvent_intro | exact Hfair].
  - unfold slot_mirrors_book in Hm. simpl in Hm. rewrite Ho in Hm.
    destruct (Z.eq_dec (position b) 0) as [Hflat | Hlong].
    + rewrite (next_flat p d l self b Ho Hflat) in Hr.
      destruct (any _); [destruct (Qlt_bool _ _) |]; inversion Hr; subst st;
        (split; [| exact Hfair]); apply solvent_intro; simpl; auto.
      rewrite Hm. simpl. intros o [<- | []]. simpl. lia.
    + rewrite (next_long p d l self b Ho Hlong) in Hr.
      destruct (any _); inversion Hr; subst st;
        (split; [| exact Hfair]); apply solvent_intro; simpl; auto.
      rewrite Hm. simpl. intros o [<- | []]. reflexivity.
Qed.

Lemma run_solvent (p : Params) (ticks : list Tick) :
  forall len st,
    slot_mirrors_book st -> solvent st -> fair_commission (snd st) ->
    Forall nonneg_prices ticks ->
    exists st', run p len ticks st = Return st' /\ solvent st'.
Proof.
  induction ticks as [| t rest IH]; intros len [self b] Hm Hs Hf Hprices; simpl.
  - eauto.
  - inversion Hprices as [| ? ? [Hopen Hclose] Hrest]; subst.
    pose proof (@broker_turn_mirrors (S len) (event t) (data t) self b Hm) as Hm1.
    destruct (@broker_turn_solvent (S len) (event t) (data t) self b Hm Hs Hf Hopen)
      as [Hs1 Hf1].
    destruct (broker_next (event t) (data t) b) as [b1 notes]. simpl in Hm1, Hs1, Hf1.
    destruct (@next_solvent p (data t) (lines t) _ b1 Hm1 Hs1 Hf1 Hclose)
      as [st1 [-> [Hm2 [Hs2 Hf2]]]].
    simpl. now apply IH.
Qed.

(** C8. With a non-negative starting cash and non-negative open and close
    prices on every bar, after any number of bars, whatever the indicators say
    and whatever the broker does with pending orders, cash and position are
    non-negative, so equity is non-negative at any non-negative close, and so
    is every value in the performance record. *)
Theorem equity_never_negative (p : Params) (startcash : Q) (len : nat)
    (ticks : list Tick)
    (Hcash : 0 <= startcash) (Hprices : Forall nonneg_prices ticks) :
  exists self b,
    run p len ticks (init, new_broker startcash (1 # 1000)) = Return (self, b)
    /\ 0 <= cash b /\ (0 <= position b)%Z
    /\ (forall c, 0 <= c -> 0 <= getvalue b c)
    /\ Forall (fun v => 0 <= v) (portfolio_values self).
Proof.
  destruct (@run_solvent p ticks len (init, new_broker startcash (1 # 1000)))
    as [[self b] [Hr [Hc [Hp [Hpv _]]]]]; trivial.
  - reflexivity.
  - apply solvent_intro; simpl; auto; [lia | intros ? []].
  - unfold fair_commission. simpl. split; unfold Qle; simpl; lia.
  - simpl in Hc, Hp, Hpv. exists self, b. repeat split; trivial.
    intros c Hc0. unfold getvalue. pose proof (nonneg_value _ _ Hp Hc0). lra.
Qed.

Lemma Qle_by_computation (x y : Q) : Qle_bool x y = true -> x <= y.
Proof. apply Qle_bool_iff. Qed.

Lemma equity_never_negative_witness :
  exists self b,
    run params 0 sample_ticks (init, new_broker 100000 (1 # 1000)) = Return (self, b)
    /\ 0 <= cash b /\ (0 <= position b)%Z
    /\ (forall c, 0 <= c -> 0 <= getvalue b c)
    /\ Forall (fun v => 0 <= v) (portfolio_values self).
Proof.
  apply equity_never_negative.
  - apply Qle_by_computation. reflexivity.
  - repeat (apply Forall_cons;
            [split; apply Qle_by_computation; reflexivity |]).
    apply Forall_nil.
Defined.

(** ** [run_backtest] *)

Lemma feed_length (engine : list Bar -> nat -> Indicators)
    (behaviour : nat -> BrokerEvent) (df : list Bar) :
  length (feed engine behaviour df) = length df.
Proof.
  unfold feed. rewrite length_map, length_combine, length_seq. apply Nat.min_id.
Qed.

Lemma Forall_skipn_of {A : Type} (P : A -> Prop) (k : nat) (l : list A) :
  Forall P l -> Forall P (skipn k l).
Proof.
  intros H. rewrite <- (firstn_skipn k l) in H. now apply Forall_app in H.
Qed.

Lemma feed_Forall (engine : list Bar -> nat -> Indicators)
    (behaviour : nat -> BrokerEvent) (P : BrokerEvent -> Prop) (Q : Bar -> Prop)
    (bars : list Bar) :
  (forall i, P (behaviour i)) -> Forall Q bars ->
  Forall (fun t => P (event t) /\ Q (data t)) (feed engine behaviour bars).
Proof.
  intros HP HQ. unfold feed. generalize 0%nat. generalize (engine bars).
  induction HQ as [| x l Hx Hl IH]; intros eng s; simpl; constructor.
  - simpl. auto.
  - apply IH.
Qed.

Lemma execute_all_book (px : Q) (os : list Order) :
  forall b, orders (fst (execute_all px b os)) = orders b.
Proof.
  induction os as [| o rest IH]; intros b; simpl; [reflexivity |].
  pose proof (execute_book px b o) as Hb.
  destruct (execute px b o) as [b1 done]. simpl in Hb.
  specialize (IH b1). destruct (execute_all px b1 rest) as [b2 notes].
  simpl in *. congruence.
Qed.

Lemma next_idle_records (p : Params) (d : Bar) (l : Lines) (self : Strategy) (b : Broker) :
  order self = None -> 0 < close d ->
  exists self' b',
    next p d l self b = Return (self', b')
    /\ portfolio_values self' = portfolio_values self ++ [getvalue b (close d)].
Proof.
  intros Ho Hc. apply Qlt_bool_iff in Hc.
  destruct (Z.eq_dec (position b) 0) as [Hflat | Hlong].
  - rewrite (next_flat p d l self b Ho Hflat). rewrite Hc.
    destruct (any _); do 2 eexists; (split; [reflexivity |]); reflexivity.
  - rewrite (next_long p d l self b Ho Hlong).
    destruct (any _); do 2 eexists; (split; [reflexivity |]); reflexivity.
Qed.

Lemma step_execute_records (p : Params) (len : nat) (t : Tick)
    (self : Strategy) (b : Broker) :
  slot_mirrors_book (self, b) -> event t = Execute -> 0 < close (data t) ->
  exists self' b',
    step p len t (self, b) = Return (self', b')
    /\ slot_mirrors_book (self', b')
    /\ length (portfolio_values self') = S (length (portfolio_values self)).
Proof.
  intros Hm Hev Hc. unfold step.
  pose proof (broker_turn_mirrors len (event t) (data t) self b Hm) as Hm1.
  assert (Hbook : orders (fst (broker_next (event t) (data t) b)) = []).
  { rewrite Hev. cbn [broker_next]. now rewrite execute_all_book. }
  destruct (broker_next (event t) (data t) b) as [b1 notes]. cbn [fst snd] in *.
  assert (Hidle : order (notify_all len notes self) = None).
  { unfold slot_mirrors_book in Hm1. cbn [fst snd] in Hm1.
    destruct (order (notify_all len notes self)); [congruence | reflexivity]. }
  destruct (next_idle_records p (data t) (lines t) _ b1 Hidle Hc)
    as [self' [b' [Hr Hv]]].
  destruct (next_mirrors p (data t) (lines t) _ b1 Hm1) as [st [Hr' Hm2]].
  rewrite Hr in Hr'. inversion Hr'; subst st.
  exists self', b'. split; [exact Hr |]. split; [exact Hm2 |].
  rewrite Hv, length_app.
  destruct (notify_all_keeps_record len notes self) as [-> _]. simpl. lia.
Qed.

Lemma run_execute_records (p : Params) (ticks : list Tick) :
  forall len self b,
    slot_mirrors_book (self, b) ->
    Forall (fun t => event t = Execute /\ 0 < close (data t)) ticks ->
    exists self' b',
      run p len ticks (self, b) = Return (self', b')
      /\ length (portfolio_values self')
         = (length (portfolio_values self) + length ticks)%nat.
Proof.
  induction ticks as [| t rest IH]; intros len self b Hm Hall; cbn [run length].
  - do 2 eexists. split; [reflexivity | lia].
  - inversion Hall as [| ? ? [Hev Hc] Hrest]; subst.
    destruct (step_execute_records p (S len) t self b Hm Hev Hc)
      as [self1 [b1 [Hstep [Hm1 Hlen]]]].
    rewrite Hstep. cbn [bind].
    destruct (IH (S len) self1 b1 Hm1 Hrest) as [self' [b' [Hrun Hlen']]].
    exists self', b'. split; [exact Hrun | lia].
Qed.

(** C7, as the code has it.  [run_backtest] refuses to start exactly when no
    data is available, that is when the fetch gave [None] or an empty frame.
    On every other frame [cerebro.run()] is called without any check of the
    order of the bars or of the sign of prices and volumes.  If the
    indicators raise while they are computed, the exception leaves
    [run_backtest]; if not, the bars are replayed and the run returns its
    results, and when the broker resolves the pending order on each bar and
    the closes are positive, every bar from the minimum period on leaves a
    performance record, whatever the volumes and the order of the bars. *)
Theorem run_backtest_refuses_only_no_data
    (indicators : list Bar -> Exc (nat -> Indicators))
    (behaviour : nat -> BrokerEvent) (minperiod : nat) (df : option (list Bar)) :
  (run_backtest indicators behaviour minperiod df = Return No_data_available
   <-> df = None \/ df = Some [])
  /\ (forall bars e, df = Some bars -> bars <> [] ->
        indicators bars = Raise e ->
        run_backtest indicators behaviour minperiod df = Raise e)
  /\ (forall bars computed, df = Some bars -> bars <> [] ->
        indicators bars = Return computed ->
        exists final,
          run_cerebro indicators behaviour minperiod bars = Return final
          /\ (run_backtest indicators behaviour minperiod df
                = Return (No_portfolio_values_recorded final)
              \/ run_backtest indicators behaviour minperiod df
                 = Return (Report_generated final))
          /\ ((forall i, behaviour i = Execute) ->
              Forall (fun b => 0 < close b) bars ->
              length (portfolio_values (fst final))
              = (length bars - (minperiod - 1))%nat)).
Proof.
  assert (Hraise : forall bars e, bars <> [] -> indicators bars = Raise e ->
            run_backtest indicators behaviour minperiod (Some bars) = Raise e).
  { intros bars e Hne He. destruct bars as [| b0 rest]; [congruence |].
    unfold run_backtest, run_cerebro. now rewrite He. }
  assert (Hrun : forall bars computed, bars <> [] ->
            indicators bars = Return computed ->
            exists final,
              run_cerebro indicators behaviour minperiod bars = Return final
              /\ (run_backtest indicators behaviour minperiod (Some bars)
                    = Return (No_portfolio_values_recorded final)
                  \/ run_backtest indicators behaviour minperiod (Some bars)
                     = Return (Report_generated final))).
  { intros bars computed Hne Hc. unfold run_backtest, run_cerebro. rewrite Hc.
    cbn [bind]. unfold cerebro_run.
    destruct (run_returns params
                (skipn (minperiod - 1) (feed (fun _ => computed) behaviour bars))
                (minperiod - 1) (init, new_broker 100000 (1 # 1000)))
      as [final Hfinal].
    exists final. split; [exact Hfinal |].
    destruct bars as [| b0 rest]; [congruence |].
    rewrite Hfinal. cbn [bind].
    destruct (portfolio_values (fst final)); auto. }
  split; [| split].
  - split.
    + intros H. destruct df as [[| b0 rest] |]; auto.
      destruct (indicators (b0 :: rest)) as [computed | e] eqn:Hi.
      * destruct (Hrun (b0 :: rest) computed) as [final [_ [Hr | Hr]]];
          [discriminate | exact Hi | |]; rewrite Hr in H; discriminate.
      * rewrite (Hraise (b0 :: rest) e) in H; [discriminate | discriminate | exact Hi].
    + intros [-> | ->]; reflexivity.
  - intros bars e -> Hne He. now apply Hraise.
  - intros bars computed -> Hne Hc.
    destruct (Hrun bars computed Hne Hc) as [final [Hfinal Hr]].
    exists final. split; [exact Hfinal |]. split; [exact Hr |].
    intros Hexec Hpos. unfold run_cerebro in Hfinal. rewrite Hc in Hfinal.
    cbn [bind] in Hfinal. unfold cerebro_run in Hfinal.
    destruct (run_execute_records params
                (skipn (minperiod - 1) (feed (fun _ => computed) behaviour bars))
                (minperiod - 1) init (new_broker 100000 (1 # 1000)))
      as [self' [b' [Hrun' Hlen]]].
    + reflexivity.
    + apply Forall_skipn_of.
      exact (feed_Forall (fun _ => computed) behaviour
               (fun ev => ev = Execute) (fun b => 0 < close b) bars Hexec Hpos).
    + rewrite Hrun' in Hfinal. inversion Hfinal; subst final. cbn [fst].
      rewrite Hlen, length_skipn, feed_length. reflexivity.
Qed.

Lemma run_backtest_refuses_only_no_data_witness :
  exists final,
    run_cerebro (sample_indicators (fun _ => undefined)) (fun _ => Execute) 34
      zero_volume_series = Return final
    /\ length (portfolio_values (fst final)) = 7%nat
    /\ run_backtest (sample_indicators (fun _ => undefined)) (fun _ => Execute) 34
         (Some [flat_bar 1 10]) = Raise IndexError.
Proof.
  destruct (run_backtest_refuses_only_no_data (sample_indicators (fun _ => undefined))
              (fun _ => Execute) 34 (Some zero_volume_series)) as [_ [_ Hrun]].
  destruct (Hrun zero_volume_series (fun _ => undefined) eq_refl)
    as [final [Hfinal [_ Hcount]]]; [discriminate | reflexivity |].
  destruct (run_backtest_refuses_only_no_data (sample_indicators (fun _ => undefined))
              (fun _ => Execute) 34 (Some [flat_bar 1 10])) as [_ [Hraise _]].
  exists final. split; [exact Hfinal |]. split.
  - apply Hcount; [reflexivity |].
    unfold zero_volume_series. apply Forall_map, Forall_forall. intros i _. simpl.
    destruct (Nat.even i); reflexivity.
  - apply (Hraise [flat_bar 1 10] IndexError eq_refl); [discriminate | reflexivity].
Defined.

(** C7, as the claim words it, fails: forty bars whose volume is zero, with
    closes that go up and down between 10 and 9, are simulated.  Whatever the
    values of the indicators, with a minimum period of 34 and a broker that
    resolves the pending order on the next bar, [next] runs on the last seven
    bars and each leaves a performance record. *)
Lemma zero_volume_series_is_simulated :
  Forall (fun b => volume b <= 0 /\ 0 < close b) zero_volume_series
  /\ forall computed : nat -> Indicators,
       exists final,
         run_backtest (fun _ => Return computed) (fun _ => Execute) 34
           (Some zero_volume_series) = Return (Report_generated final)
         /\ length (portfolio_values (fst final)) = 7%nat.
Proof.
  assert (Hseries : Forall (fun b => volume b <= 0 /\ 0 < close b) zero_volume_series).
  { unfold zero_volume_series. apply Forall_map, Forall_forall. intros i _. simpl.
    split; [apply Qle_by_computation; reflexivity |].
    destruct (Nat.even i); reflexivity. }
  split; [exact Hseries |]. intros computed.
  assert (Hlen : length (skipn 33 (feed (fun _ => computed) (fun _ => Execute)
                                     zero_volume_series)) = 7%nat).
  { rewrite length_skipn, feed_length. reflexivity. }
  destruct (run_execute_records params
              (skipn 33 (feed (fun _ => computed) (fun _ => Execute) zero_volume_series))
              33 init (new_broker 100000 (1 # 1000))) as [self' [b' [Hrun Hrec]]].
  - reflexivity.
  - apply Forall_skipn_of.
    apply (feed_Forall (fun _ => computed) (fun _ => Execute)
             (fun ev => ev = Execute) (fun b => 0 < close b) zero_volume_series
             (fun _ => eq_refl)).
    eapply Forall_impl; [| exact Hseries]. simpl. tauto.
  - rewrite Hlen in Hrec. simpl in Hrec.
    exists (self', b'). split; [| exact Hrec].
    unfold run_backtest, run_cerebro, cerebro_run, zero_volume_series.
    cbn [map seq bind]. fold zero_volume_series.
    change (34 - 1)%nat with 33%nat.
    unfold zero_volume_series in Hrun. cbn [map seq] in Hrun.
    fold zero_volume_series in Hrun.
    rewrite Hrun. cbn [bind fst].
    destruct (portfolio_values self'); [discriminate | reflexivity].
Qed.

(** ** The RSI stays between 0 and 100 *)

Lemma gain_nonneg (prev x : Q) : 0 <= gain prev x.
Proof.
  unfold gain. destruct (Qlt_bool prev x) eqn:H; [| lra].
  apply Qlt_bool_iff in H. lra.
Qed.

Lemma loss_nonneg (prev x : Q) : 0 <= loss prev x.
Proof.
  unfold loss. destruct (Qlt_bool x prev) eqn:H; [| lra].
  apply Qlt_bool_iff in H. lra.
Qed.

Lemma period_positive (period : nat) :
  (1 <= period)%nat -> 0 < inject_Z (Z.of_nat period).
Proof.
  intros H. change 0 with (inject_Z 0). rewrite <- Zlt_Qlt. lia.
Qed.

Lemma smooth_nonneg (period n : nat) (acc x : Q) :
  (1 <= period)%nat -> 0 <= acc -> 0 <= x -> 0 <= smooth period n acc x.
Proof.
  intros Hp Hacc Hx. unfold smooth. pose proof (period_positive period Hp) as Hpos.
  destruct (Nat.ltb n period); [lra |].
  destruct (Nat.eqb n period).
  - apply Qle_shift_div_l; [exact Hpos | lra].
  - apply Qle_shift_div_l; [exact Hpos |].
    assert (0 <= inject_Z (Z.of_nat period - 1)).
    { change 0 with (inject_Z 0). rewrite <- Zle_Qle. lia. }
    assert (0 <= acc * inject_Z (Z.of_nat period - 1)) by now apply Qmult_le_0_compat.
    lra.
Qed.

Lemma rsi_index_bounds (avg_gain avg_loss : Q) :
  0 <= avg_gain -> 0 <= avg_loss -> 0 <= rsi_index avg_gain avg_loss <= 100.
Proof.
  intros Hg Hl. unfold rsi_index.
  destruct (Qeq_bool avg_loss 0) eqn:Hz; [lra |].
  apply Qeq_bool_neq in Hz.
  assert (Hlpos : 0 < avg_loss) by (apply Qle_lteq in Hl; destruct Hl as [Hl | Hl];
                                    [exact Hl | exfalso; apply Hz; now symmetry]).
  assert (Hrs : 0 <= avg_gain / avg_loss) by (apply Qle_shift_div_l; [exact Hlpos | lra]).
  set (rs := avg_gain / avg_loss) in *.
  assert (H1 : 0 <= 100 / (1 + rs)) by (apply Qle_shift_div_l; lra).
  assert (H2 : 100 / (1 + rs) <= 100) by (apply Qle_shift_div_r; lra).
  lra.
Qed.

Lemma rsi_from_bounded (period : nat) (prices : list Q) :
  (1 <= period)%nat ->
  forall n prev avg_gain avg_loss,
    0 <= avg_gain -> 0 <= avg_loss ->
    Forall bounded (rsi_from period n prev avg_gain avg_loss prices).
Proof.
  intros Hp. induction prices as [| x rest IH]; intros n prev ag al Hg Hl; simpl.
  - constructor.
  - pose proof (smooth_nonneg period (S n) ag (gain prev x) Hp Hg (gain_nonneg prev x)) as Hg'.
    pose proof (smooth_nonneg period (S n) al (loss prev x) Hp Hl (loss_nonneg prev x)) as Hl'.
    constructor; [| now apply IH].
    destruct (Nat.ltb (S n) period); simpl; [exact I |].
    now apply rsi_index_bounds.
Qed.

Lemma rsi_from_length (period : nat) (prices : list Q) :
  forall n prev avg_gain avg_loss,
    length (rsi_from period n prev avg_gain avg_loss prices) = length prices.
Proof.
  induction prices as [| x rest IH]; intros; simpl; [reflexivity |].
  now rewrite IH.
Qed.

Lemma rsi_from_defined (period : nat) (prices : list Q) :
  forall n prev avg_gain avg_loss i,
    (i < length prices)%nat ->
    (exists v, nth_error (rsi_from period n prev avg_gain avg_loss prices) i = Some (Some v))
    <-> (period <= S n + i)%nat.
Proof.
  induction prices as [| x rest IH]; intros n prev ag al i Hi; simpl in Hi; [lia |].
  destruct i as [| i]; simpl.
  - destruct (Nat.ltb (S n) period) eqn:Hlt.
    + apply Nat.ltb_lt in Hlt. split; [intros [v Hv]; discriminate | lia].
    + apply Nat.ltb_ge in Hlt. split; [lia | eauto].
  - rewrite IH by lia. lia.
Qed.

(** C9. For every price series and every period, the RSI line is aligned with
    the prices and each of its defined values lies between 0 and 100; with a
    positive period the defined positions are those from index [period] on. *)
Theorem rsi_within_0_100 (period : nat) (prices : list Q) :
  Forall bounded (RSI period prices)
  /\ length (RSI period prices) = length prices
  /\ (forall i v, nth_error (RSI period prices) i = Some (Some v) -> 0 <= v <= 100)
  /\ (forall i, (1 <= period)%nat -> (i < length prices)%nat ->
        ((exists v, nth_error (RSI period prices) i = Some (Some v))
         <-> (period <= i)%nat)).
Proof.
  assert (Hall : Forall bounded (RSI period prices)).
  { unfold RSI. destruct period as [| k].
    - apply Forall_map, Forall_forall. intros; exact I.
    - destruct prices as [| x rest]; constructor; [exact I |].
      apply rsi_from_bounded; [lia | lra | lra]. }
  split; [exact Hall |]. split; [| split].
  - unfold RSI. destruct period; [apply length_map |].
    destruct prices; simpl; [reflexivity |]. now rewrite rsi_from_length.
  - intros i v Hi. apply nth_error_In in Hi.
    rewrite Forall_forall in Hall. exact (Hall _ Hi).
  - intros i Hp Hi. unfold RSI. destruct period as [| k]; [lia |].
    destruct prices as [| x rest]; simpl in Hi; [lia |].
    destruct i as [| i]; simpl.
    + split; [intros [v Hv]; discriminate | lia].
    + rewrite rsi_from_defined by lia. lia.
Qed.

Lemma rsi_within_0_100_witness :
  nth_error (RSI 2 [10; 11; 9; 12]) 2 = Some (Some (100 - 100 / (1 + (0 + 1) / 2 / ((0 + 2) / 2))))
  /\ 0 <= 100 - 100 / (1 + (0 + 1) / 2 / ((0 + 2) / 2)) <= 100.
Proof.
  assert (H : nth_error (RSI 2 [10; 11; 9; 12]) 2
              = Some (Some (100 - 100 / (1 + (0 + 1) / 2 / ((0 + 2) / 2))))).
  { reflexivity. }
  split; [exact H |].
  destruct (rsi_within_0_100 2 [10; 11; 9; 12]) as [_ [_ [Hb _]]].
  exact (Hb _ _ H).
Defined.

(** * Further properties of the strategy *)

(** ** What [next] and [notify_order] touch *)

Lemma next_effect (p : Params) (d : Bar) (l : Lines) (self : Strategy) (b : Broker) :
  exists self' b' (recorded : bool) (out : list LogLine) (new : list Order),
    next p d l self b = Return (self', b')
    /\ portfolio_values self'
       = portfolio_values self ++ (if recorded then [getvalue b (close d)] else [])
    /\ dates self' = dates self ++ (if recorded then [datetime d] else [])
    /\ printed self' = printed self ++ out
    /\ orders b' = orders b ++ new /\ (length new <= 1)%nat
    /\ (order self <> None -> new = [] /\ recorded = false /\ out = [])
    /\ cash b' = cash b /\ position b' = position b /\ commission b' = commission b
    /\ buyprice self' = buyprice self /\ buycomm self' = buycomm self
    /\ bar_executed self' = bar_executed self.
Proof.
  destruct (order self) as [o |] eqn:Ho.
  - exists self, b, false, [], []. rewrite next_pending by congruence.
    rewrite !app_nil_r. simpl. repeat split; auto.
  - destruct (Z.eq_dec (position b) 0) as [Hflat | Hlong].
    + rewrite (next_flat p d l self b Ho Hflat).
      destruct (any _); [destruct (Qlt_bool _ _) |].
      * do 2 eexists. exists true, [BUY_CREATE (close d)]. eexists.
        split; [reflexivity |]. simpl.
        repeat split; try reflexivity; try (simpl; lia); try congruence.
      * do 2 eexists. exists false, [BUY_CREATE (close d); Invalid_price_data], [].
        split; [reflexivity |]. simpl. rewrite !app_nil_r, <- app_assoc.
        repeat split; try reflexivity; try (simpl; lia); try congruence.
      * do 2 eexists. exists true, [], []. split; [reflexivity |]. simpl.
        rewrite !app_nil_r.
        repeat split; try reflexivity; try (simpl; lia); try congruence.
    + rewrite (next_long p d l self b Ho Hlong).
      destruct (any _).
      * do 2 eexists. exists true, [SELL_CREATE (close d)]. eexists.
        split; [reflexivity |]. simpl.
        repeat split; try reflexivity; try (simpl; lia); try congruence.
      * do 2 eexists. exists true, [], []. split; [reflexivity |]. simpl.
        rewrite !app_nil_r.
        repeat split; try reflexivity; try (simpl; lia); try congruence.
Qed.

Lemma notify_order_effect (len : nat) (o : Order) (self : Strategy) :
  portfolio_values (notify_order len o self) = portfolio_values self
  /\ dates (notify_order len o self) = dates self
  /\ exists out, printed (notify_order len o self) = printed self ++ out
                 /\ (length out <= 1)%nat.
Proof.
  unfold notify_order. destruct (status o); simpl;
    try (repeat split; trivial; exists []; rewrite app_nil_r; simpl; split; [reflexivity | lia]).
  - destruct (isbuy o); simpl; repeat split; trivial; eexists; split;
      try reflexivity; simpl; lia.
  - repeat split; trivial. eexists. split; [reflexivity | simpl; lia].
  - repeat split; trivial. eexists. split; [reflexivity | simpl; lia].
  - repeat split; trivial. eexists. split; [reflexivity | simpl; lia].
Qed.

Lemma notify_all_printed (len : nat) (notes : list Order) :
  forall self, exists out, printed (notify_all len notes self) = printed self ++ out.
Proof.
  unfold notify_all. induction notes as [| o rest IH]; intros self; simpl.
  - exists []. now rewrite app_nil_r.
  - destruct (IH (notify_order len o self)) as [out Hout].
    destruct (notify_order_effect len o self) as [_ [_ [out0 [Hout0 _]]]].
    exists (out0 ++ out). rewrite Hout, Hout0. now rewrite app_assoc.
Qed.

Lemma pick_length {A : Type} (mask : list bool) :
  forall l : list A, (length (pick mask l) <= length l)%nat.
Proof.
  induction mask as [| keep mask IH]; intros [| x l]; simpl; try lia.
  specialize (IH l). destruct keep; simpl; lia.
Qed.

Lemma pick_Forall {A : Type} (P : A -> Prop) (mask : list bool) :
  forall l : list A, Forall P l -> Forall P (pick mask l).
Proof.
  induction mask as [| keep mask IH]; intros [| x l] H; simpl; try constructor.
  inversion H; subst. destruct keep; [constructor |]; auto.
Qed.

Lemma pick_sorted {A : Type} (R : A -> A -> Prop) (mask : list bool) :
  forall l : list A, StronglySorted R l -> StronglySorted R (pick mask l).
Proof.
  induction mask as [| keep mask IH]; intros [| x l] H; simpl; try constructor.
  inversion H; subst. destruct keep.
  - constructor; [now apply IH | now apply pick_Forall].
  - now apply IH.
Qed.

Lemma run_record (p : Params) (ticks : list Tick) :
  forall len self b,
  exists self' b' mask vs out,
    run p len ticks (self, b) = Return (self', b')
    /\ length mask = length ticks
    /\ dates self' = dates self ++ pick mask (map (fun t => datetime (data t)) ticks)
    /\ portfolio_values self' = portfolio_values self ++ vs
    /\ length vs = length (pick mask (map (fun t => datetime (data t)) ticks))
    /\ printed self' = printed self ++ out.
Proof.
  induction ticks as [| t rest IH]; intros len self b.
  - exists self, b, [], [], []. simpl. rewrite !app_nil_r. repeat split; reflexivity.
  - simpl. destruct (broker_next (event t) (data t) b) as [b1 notes].
    destruct (notify_all_keeps_record (S len) notes self) as [Hpv Hdt].
    destruct (notify_all_printed (S len) notes self) as [out0 Hout0].
    destruct (next_effect p (data t) (lines t) (notify_all (S len) notes self) b1)
      as [self1 [b2 [recorded [out1 [new [Hr [Hv [Hd [Hp _]]]]]]]]].
    rewrite Hr. simpl.
    destruct (IH (S len) self1 b2) as [self' [b' [mask [vs [out [Hrun [Hm [Hd' [Hv' [Hl Hp']]]]]]]]]].
    exists self', b', (recorded :: mask).
    exists ((if recorded then [getvalue b1 (close (data t))] else []) ++ vs).
    exists (out0 ++ out1 ++ out).
    split; [exact Hrun |]. split; [simpl; now rewrite Hm |].
    rewrite Hd', Hd, Hdt, Hv', Hv, Hpv, Hp', Hp, Hout0.
    destruct recorded; simpl; rewrite <- ?app_assoc, ?app_nil_r; simpl;
      repeat split; trivial; now rewrite Hl.
Qed.

(** X1. The performance record and the output only grow: whatever the bars
    and the broker do, a run from any state keeps what was recorded and
    printed before as a prefix, and adds as many values as dates, at most one
    of each per bar. *)
Theorem record_is_append_only (p : Params) (len : nat) (ticks : list Tick)
    (self : Strategy) (b : Broker) :
  exists self' b' vs ds out,
    run p len ticks (self, b) = Return (self', b')
    /\ portfolio_values self' = portfolio_values self ++ vs
    /\ dates self' = dates self ++ ds
    /\ printed self' = printed self ++ out
    /\ length vs = length ds /\ (length ds <= length ticks)%nat.
Proof.
  destruct (run_record p ticks len self b)
    as [self' [b' [mask [vs [out [Hrun [Hm [Hd [Hv [Hl Hp]]]]]]]]]].
  exists self', b', vs, (pick mask (map (fun t => datetime (data t)) ticks)), out.
  repeat split; trivial.
  etransitivity; [apply pick_length |]. now rewrite length_map.
Qed.

(** X2. The recorded dates are the timestamps of the bars on which [next] ran
    to its end, in the order of the bars: a subsequence of the feed's
    timestamps, which is therefore ordered as the feed is. *)
Theorem recorded_dates_follow_bars (p : Params) (len : nat) (ticks : list Tick)
    (startcash rate : Q) :
  exists self' b' mask,
    run p len ticks (init, new_broker startcash rate) = Return (self', b')
    /\ length mask = length ticks
    /\ dates self' = pick mask (map (fun t => datetime (data t)) ticks)
    /\ forall R : Z -> Z -> Prop,
         StronglySorted R (map (fun t => datetime (data t)) ticks) ->
         StronglySorted R (dates self').
Proof.
  destruct (run_record p ticks len init (new_broker startcash rate))
    as [self' [b' [mask [vs [out [Hrun [Hm [Hd _]]]]]]]].
  simpl in Hd. exists self', b', mask. repeat split; trivial.
  intros R HR. rewrite Hd. now apply pick_sorted.
Qed.

(** X3. The strategy moves no money: a call of [next] leaves the broker's
    cash, position and commission rate as they are and hands it one new order
    at most; it does not touch [buyprice], [buycomm] or [bar_executed].  A
    notification never alters the performance record. *)
Theorem next_moves_no_money (p : Params) (d : Bar) (l : Lines)
    (self : Strategy) (b : Broker) :
  (exists self' b' new,
      next p d l self b = Return (self', b')
      /\ cash b' = cash b /\ position b' = position b /\ commission b' = commission b
      /\ orders b' = orders b ++ new /\ (length new <= 1)%nat
      /\ buyprice self' = buyprice self /\ buycomm self' = buycomm self
      /\ bar_executed self' = bar_executed self)
  /\ (forall len notes,
        portfolio_values (notify_all len notes self) = portfolio_values self
        /\ dates (notify_all len notes self) = dates self).
Proof.
  split.
  - destruct (next_effect p d l self b)
      as [self' [b' [recorded [out [new [Hr [_ [_ [_ [Ho [Hl [_ H]]]]]]]]]]]].
    exists self', b', new. split; [exact Hr |].
    destruct H as [Hc [Hp [Hk [H1 [H2 H3]]]]]. repeat split; trivial.
  - intros len notes. apply notify_all_keeps_record.
Qed.

(** ** Long only *)

Lemma execute_position (px : Q) (b : Broker) (o : Order) :
  position (fst (execute px b o)) =
  match side o, status (snd (execute px b o)) with
  | Buy, Completed => (position b + size o)%Z
  | Sell, _ => (position b - size o)%Z
  | Buy, _ => position b
  end.
Proof.
  unfold execute. destruct (side o); [| reflexivity].
  destruct (Qle_bool _ _); reflexivity.
Qed.

Lemma broker_turn_long_only (len : nat) (ev : BrokerEvent) (d : Bar)
    (self : Strategy) (b : Broker) :
  slot_mirrors_book (self, b) -> long_only (self, b) ->
  long_only (notify_all len (snd (broker_next ev d b)) self, fst (broker_next ev d b)).
Proof.
  intros Hm [Hpos Hshape]. unfold long_only in *. cbn [fst snd] in *.
  destruct ev; cbn [broker_next fst snd].
  - auto.
  - unfold slot_mirrors_book in Hm. cbn [fst snd] in Hm.
    destruct (order self) as [o |]; rewrite Hm in *; cbn [execute_all].
    + pose proof (execute_book (open d) (clear_orders b) o) as Hbk.
      pose proof (execute_position (open d) (clear_orders b) o) as Hps.
      assert (Ho := Hshape o (or_introl eq_refl)).
      destruct (execute (open d) (clear_orders b) o) as [b1 done].
      cbn [fst snd] in *. rewrite Hbk. split; [| intros ? []].
      rewrite Hps. simpl.
      destruct (side o); [destruct (status done) |]; lia.
    + cbn [fst snd]. split; [exact Hpos | intros ? []].
  - split; [exact Hpos | intros ? []].
  - split; [exact Hpos | intros ? []].
Qed.

Lemma next_long_only (p : Params) (d : Bar) (l : Lines) (self : Strategy) (b : Broker) :
  slot_mirrors_book (self, b) -> long_only (self, b) ->
  exists st, next p d l self b = Return st /\ slot_mirrors_book st /\ long_only st.
Proof.
  intros Hm [Hpos Hshape]. cbn [fst snd] in Hpos, Hshape.
  destruct (next_mirrors p d l self b Hm) as [st [Hr Hm']].
  exists st. split; [exact Hr |]. split; [exact Hm' |]. clear Hm'.
  destruct (order self) as [o |] eqn:Ho.
  - rewrite next_pending in Hr by congruence. inversion Hr; subst st. now split.
  - unfold slot_mirrors_book in Hm. simpl in Hm. rewrite Ho in Hm.
    destruct (Z.eq_dec (position b) 0) as [Hflat | Hlong].
    + rewrite (next_flat p d l self b Ho Hflat) in Hr.
      destruct (any _); [destruct (Qlt_bool _ _) |]; inversion Hr; subst st;
        split; simpl; auto.
      rewrite Hm. simpl. intros o [<- | []]. simpl. lia.
    + rewrite (next_long p d l self b Ho Hlong) in Hr.
      destruct (any _); inversion Hr; subst st; split; simpl; auto.
      rewrite Hm. simpl. intros o [<- | []]. simpl. lia.
Qed.

Lemma run_long_only (p : Params) (ticks : list Tick) :
  forall len st,
    slot_mirrors_book st -> long_only st ->
    exists st', run p len ticks st = Return st' /\ long_only st'.
Proof.
  induction ticks as [| t rest IH]; intros len [self b] Hm Hl; simpl; [eauto |].
  pose proof (broker_turn_mirrors (S len) (event t) (data t) self b Hm) as Hm1.
  pose proof (broker_turn_long_only (S len) (event t) (data t) self b Hm Hl) as Hl1.
  destruct (broker_next (event t) (data t) b) as [b1 notes]. cbn [fst snd] in Hm1, Hl1.
  destruct (next_long_only p (data t) (lines t) _ b1 Hm1 Hl1) as [st1 [-> [Hm2 Hl2]]].
  simpl. now apply IH.
Qed.

(** X4. The strategy is long only, whatever the prices (negative ones
    included), the starting cash, the commission rate and the behaviour of the
    broker: in every state a run reaches the position is not short, a pending
    Buy is for one share at least and was placed on a flat position, and a
    pending Sell is for exactly the whole of a long position. *)
Theorem never_short (p : Params) (len : nat) (ticks : list Tick) (startcash rate : Q) :
  exists self b,
    run p len ticks (init, new_broker startcash rate) = Return (self, b)
    /\ (0 <= position b)%Z
    /\ forall o, In o (orders b) ->
         match side o with
         | Buy => (1 <= size o)%Z /\ position b = 0%Z
         | Sell => size o = position b /\ (0 < position b)%Z
         end.
Proof.
  destruct (run_long_only p ticks len (init, new_broker startcash rate))
    as [[self b] [Hr [Hp Hs]]].
  - reflexivity.
  - split; simpl; [lia | intros ? []].
  - exists self, b. auto.
Qed.

(** ** The position sizer and the risk budget *)

Lemma position_size_some (p : Params) (e c : Q) (n : Z) :
  position_size p e c = Return (Some n) ->
  0 < c /\ n = Z.max 1 (Qfloor (e * risk_percent p / (c * (101 # 100)))).
Proof.
  rewrite position_size_eq. destruct (Qlt_bool 0 c) eqn:Hc; [| discriminate].
  intros H. inversion H. split; [now apply Qlt_bool_iff | reflexivity].
Qed.

(** X6. The size grows with equity and shrinks with the price: with a
    non-negative risk fraction, more equity at the same price never gives a
    smaller size; with a non-negative budget, a higher price never gives a
    larger one. *)
Theorem size_is_monotone (p : Params) (e e' c c' : Q) (n n' : Z)
    (Hrisk : 0 <= risk_percent p) :
  (e <= e' ->
   position_size p e c = Return (Some n) ->
   position_size p e' c = Return (Some n') -> (n <= n')%Z)
  /\ (c <= c' -> 0 <= e ->
      position_size p e c = Return (Some n) ->
      position_size p e c' = Return (Some n') -> (n' <= n)%Z).
Proof.
  split.
  - intros He H H'.
    destruct (position_size_some p e c n H) as [Hc ->].
    destruct (position_size_some p e' c n' H') as [_ ->].
    apply Z.max_le_compat_l, Qfloor_resp_le.
    assert (Hd : 0 < c * (101 # 100)) by lra.
    apply Qle_shift_div_l; [exact Hd |].
    assert (Hq : e * risk_percent p / (c * (101 # 100)) * (c * (101 # 100))
                 == e * risk_percent p) by (field; lra).
    rewrite Hq. nra.
  - intros Hcc He H H'.
    destruct (position_size_some p e c n H) as [Hc ->].
    destruct (position_size_some p e c' n' H') as [Hc' ->].
    apply Z.max_le_compat_l, Qfloor_resp_le.
    assert (Hd : 0 < c * (101 # 100)) by lra.
    assert (Hd' : 0 < c' * (101 # 100)) by lra.
    set (a := e * risk_percent p).
    assert (Ha : 0 <= a) by (unfold a; nra).
    apply Qle_shift_div_r; [exact Hd' |].
    set (t := a / (c * (101 # 100))).
    assert (Ht : t * (c * (101 # 100)) == a) by (unfold t; field; lra).
    assert (Ht0 : 0 <= t) by (unfold t; apply Qle_shift_div_l; [exact Hd | lra]).
    nra.
Qed.

Lemma size_is_monotone_witness :
  position_size params 100000 10 = Return (Some 198%Z)
  /\ position_size params 100000 20 = Return (Some 99%Z)
  /\ (99 <= 198)%Z.
Proof.
  assert (H : position_size params 100000 10 = Return (Some 198%Z)) by reflexivity.
  assert (H' : position_size params 100000 20 = Return (Some 99%Z)) by reflexivity.
  split; [exact H |]. split; [exact H' |].
  assert (Hr : 0 <= risk_percent params) by (apply Qle_by_computation; reflexivity).
  destruct (size_is_monotone params 100000 100000 10 20 198 99 Hr) as [_ Hprice].
  apply Hprice; trivial; apply Qle_by_computation; reflexivity.
Defined.

(** ** The returns series *)

Lemma pct_change_from_length (values : list Q) :
  forall prev, length (pct_change_from prev values) = length values.
Proof.
  induction values as [| x rest IH]; intros prev; simpl; [reflexivity |].
  now rewrite IH.
Qed.

Lemma change_bound (prev x : Q) :
  0 <= prev -> 0 <= x ->
  no_worse_than_total_loss (fill 0 (change prev x)).
Proof.
  intros Hp Hx. unfold change.
  destruct (Qeq_bool prev 0) eqn:Hz.
  - destruct (Qlt_bool 0 x) eqn:H0; simpl; [exact I |].
    destruct (Qlt_bool x 0) eqn:H1; simpl.
    + apply Qlt_bool_iff in H1. lra.
    + lra.
  - simpl. apply Qeq_bool_neq in Hz.
    assert (Hpos : 0 < prev).
    { apply Qle_lteq in Hp. destruct Hp as [Hp | Hp]; [exact Hp |].
      exfalso. apply Hz. now symmetry. }
    assert (0 <= x / prev) by (apply Qle_shift_div_l; [exact Hpos | lra]).
    lra.
Qed.

Lemma pct_change_from_bound (values : list Q) :
  forall prev, 0 <= prev -> Forall (fun v => 0 <= v) values ->
  Forall no_worse_than_total_loss (fillna 0 (pct_change_from prev values)).
Proof.
  induction values as [| x rest IH]; intros prev Hp Hv; simpl; constructor.
  - inversion Hv; subst. now apply change_bound.
  - inversion Hv; subst. now apply IH.
Qed.

(** X7. The returns series is aligned with the performance record: it has one
    return per recorded value, the first of them 0, each later one
    [value / previous value - 1] when the previous value is not zero, and it
    holds no NaN. *)
Theorem returns_are_aligned (results : Strategy * Broker) :
  let values := portfolio_values (fst results) in
  length (returns results) = length values
  /\ (values <> [] -> nth_error (returns results) 0 = Some (Finite 0))
  /\ (forall i prev x,
        nth_error values i = Some prev -> nth_error values (S i) = Some x ->
        ~ prev == 0 ->
        nth_error (returns results) (S i) = Some (Finite (x / prev - 1)))
  /\ ~ In NaN (returns results).
Proof.
  intros values. unfold returns. fold values. repeat split.
  - unfold fillna. rewrite length_map. destruct values; simpl; [reflexivity |].
    now rewrite pct_change_from_length.
  - destruct values; [congruence | reflexivity].
  - intros i prev x Hi Hsi Hnz. destruct values as [| v0 rest]; [destruct i; discriminate |].
    simpl. clear results. revert v0 i Hi Hsi.
    induction rest as [| v1 rest IH]; intros v0 i Hi Hsi; [destruct i; discriminate |].
    destruct i as [| i]; simpl in *.
    + inversion Hi; inversion Hsi; subst. unfold change.
      destruct (Qeq_bool prev 0) eqn:Hz; [| reflexivity].
      apply Qeq_bool_iff in Hz. contradiction.
    + now apply IH.
  - unfold fillna. rewrite in_map_iff. intros [f [Hf _]]. destruct f; discriminate.
Qed.

Lemma returns_are_aligned_witness :
  let results := (record_value (record_value init 100 1) 110 2, new_broker 0 0) in
  nth_error (returns results) 1 = Some (Finite (110 / 100 - 1)).
Proof.
  intros results.
  destruct (returns_are_aligned results) as [_ [_ [Hstep _]]].
  apply (Hstep 0%nat 100 110); [reflexivity | reflexivity |].
  intros H. discriminate H.
Defined.

Lemma feed_nth (engine : list Bar -> nat -> Indicators) (behaviour : nat -> BrokerEvent)
    (df : list Bar) (k : nat) (bar : Bar) :
  nth_error df k = Some bar ->
  nth_error (feed engine behaviour df) k
  = Some {| data := bar; lines := init_lines (engine df k); event := behaviour k |}.
Proof.
  unfold feed. generalize (engine df) as eng. intros eng.
  assert (H : forall l s k,
             nth_error l k = Some bar ->
             nth_error
               (map (fun ib : nat * Bar =>
                       {| data := snd ib; lines := init_lines (eng (fst ib));
                          event := behaviour (fst ib) |})
                    (combine (seq s (length l)) l)) k
             = Some {| data := bar; lines := init_lines (eng (s + k)%nat);
                       event := behaviour (s + k)%nat |}).
  { induction l as [| x l IH]; intros s [| j] Hj; simpl in *; try discriminate.
    - inversion Hj. now rewrite Nat.add_0_r.
    - rewrite (IH (S s) j Hj). now rewrite Nat.add_succ_r. }
  intros Hk. now rewrite (H df 0%nat k Hk).
Qed.

Lemma feed_data (engine : list Bar -> nat -> Indicators) (behaviour : nat -> BrokerEvent)
    (df : list Bar) :
  map data (feed engine behaviour df) = df.
Proof.
  unfold feed. rewrite map_map. simpl. generalize 0%nat.
  induction df as [| x l IH]; intros s; simpl; [reflexivity |]. now rewrite IH.
Qed.

Lemma skipn_nth {A : Type} (l : list A) :
  forall k x, nth_error l k = Some x -> skipn k l = x :: skipn (S k) l.
Proof.
  induction l as [| y l IH]; intros [| k] x H; simpl in *; try discriminate.
  - now inversion H.
  - now apply IH.
Qed.

Lemma feed_nonneg (engine : list Bar -> nat -> Indicators)
    (behaviour : nat -> BrokerEvent) (k : nat) (df : list Bar) :
  Forall (fun b => 0 <= open b /\ 0 <= close b) df ->
  Forall nonneg_prices (skipn k (feed engine behaviour df)).
Proof.
  intros H. apply Forall_skipn_of.
  rewrite <- (feed_data engine behaviour df) in H.
  rewrite Forall_map in H. exact H.
Qed.

(** X8. With non-negative open and close prices on every bar of the frame, no
    return handed to the report is worse than a total loss: each is a finite
    return of -100% at least, or an infinite gain out of a value of zero;
    there is no negative infinity and no NaN. *)
Theorem reported_returns_are_bounded
    (engine : list Bar -> nat -> Indicators) (behaviour : nat -> BrokerEvent)
    (minperiod : nat) (df : list Bar)
    (Hprices : Forall (fun b => 0 <= open b /\ 0 <= close b) df) :
  exists results,
    cerebro_run engine behaviour minperiod df = Return results
    /\ Forall no_worse_than_total_loss (returns results).
Proof.
  unfold cerebro_run.
  destruct (run_solvent params (skipn (minperiod - 1) (feed engine behaviour df))
              (minperiod - 1) (init, new_broker 100000 (1 # 1000)))
    as [results [Hr [_ [_ [Hpv _]]]]].
  - reflexivity.
  - apply solvent_intro; simpl; auto; [apply Qle_by_computation; reflexivity | lia
                                      | intros ? []].
  - split; apply Qle_by_computation; reflexivity.
  - now apply feed_nonneg.
  - exists results. split; [exact Hr |]. unfold returns.
    destruct (portfolio_values (fst results)) as [| x rest]; [constructor |].
    inversion Hpv; subst. simpl. constructor.
    + simpl. apply Qle_by_computation. reflexivity.
    + now apply pct_change_from_bound.
Qed.

Lemma reported_returns_are_bounded_witness :
  exists results,
    cerebro_run (fun _ _ => undefined) (fun _ => Execute) 1
      [flat_bar 1 10; flat_bar 2 11] = Return results
    /\ Forall no_worse_than_total_loss (returns results).
Proof.
  apply reported_returns_are_bounded.
  repeat (apply Forall_cons; [split; apply Qle_by_computation; reflexivity |]).
  apply Forall_nil.
Defined.

(** ** The outcomes of [run_backtest] *)

(** X9. The outcome of [run_backtest] on a frame that is not empty.  An
    exception raised while the indicators are computed is not caught and
    leaves [run_backtest].  Once they are computed: with fewer bars than the
    minimum period [next] is never called, nothing is recorded, no report is
    made, and strategy and broker are as at the start; when the bar on which
    [next] is first called has a positive close, that bar is recorded and the
    report is generated. *)
Theorem run_backtest_outcomes
    (indicators : list Bar -> Exc (nat -> Indicators)) (behaviour : nat -> BrokerEvent)
    (minperiod : nat) (df : list Bar) (Hdata : df <> []) :
  (forall e, indicators df = Raise e ->
     run_backtest indicators behaviour minperiod (Some df) = Raise e)
  /\ (forall computed, indicators df = Return computed ->
      ((length df <= minperiod - 1)%nat ->
         run_backtest indicators behaviour minperiod (Some df)
         = Return (No_portfolio_values_recorded (init, new_broker 100000 (1 # 1000))))
      /\ (forall bar, nth_error df (minperiod - 1) = Some bar -> 0 < close bar ->
            exists results,
              run_backtest indicators behaviour minperiod (Some df)
              = Return (Report_generated results)
              /\ nth_error (portfolio_values (fst results)) 0
                 = Some (100000 + inject_Z 0 * close bar)
              /\ nth_error (dates (fst results)) 0 = Some (datetime bar))).
Proof.
  destruct df as [| b0 rest]; [congruence |]. split.
  - intros e He. unfold run_backtest, run_cerebro. now rewrite He.
  - intros computed Hcomputed. split.
    + intros Hshort. unfold run_backtest, run_cerebro, cerebro_run.
      rewrite Hcomputed. cbn [bind].
      rewrite skipn_all2 by now rewrite feed_length. reflexivity.
    + intros bar Hnth Hc. unfold run_backtest, run_cerebro, cerebro_run.
      rewrite Hcomputed. cbn [bind].
      rewrite (skipn_nth _ _ _ (feed_nth (fun _ => computed) behaviour _ _ _ Hnth)).
      set (t := {| data := bar; lines := _; event := _ |}).
      set (more := skipn _ _). cbn [run].
      unfold step.
      assert (Hb : broker_next (event t) (data t) (new_broker 100000 (1 # 1000))
                   = (new_broker 100000 (1 # 1000), []))
        by (destruct (event t); reflexivity).
      rewrite Hb. cbn [notify_all fold_left].
      rewrite (next_flat params (data t) (lines t) init (new_broker 100000 (1 # 1000))
                 eq_refl eq_refl).
      change (close (data t)) with (close bar).
      change (datetime (data t)) with (datetime bar).
      pose proof Hc as Hcb. apply Qlt_bool_iff in Hcb. rewrite Hcb.
      destruct (any _); cbn [bind];
        match goal with
        | |- context [run params ?n more (?s, ?b)] =>
            destruct (run_record params more n s b)
              as [self' [b' [mask [vs [out [Hrun [_ [Hd [Hv _]]]]]]]]]
        end;
        rewrite Hrun; cbn [bind fst]; rewrite Hv; simpl;
        eexists; (split; [reflexivity |]); cbn [fst]; rewrite Hv, Hd;
        split; reflexivity.
Qed.

Lemma run_backtest_outcomes_witness :
  run_backtest (sample_indicators (fun _ => undefined)) (fun _ => Execute) 34
    (Some (firstn 25 zero_volume_series))
  = Return (No_portfolio_values_recorded (init, new_broker 100000 (1 # 1000)))
  /\ run_backtest (sample_indicators (fun _ => undefined)) (fun _ => Execute) 34
       (Some (firstn 5 zero_volume_series)) = Raise IndexError.
Proof.
  split.
  - destruct (run_backtest_outcomes (sample_indicators (fun _ => undefined))
                (fun _ => Execute) 34 (firstn 25 zero_volume_series)) as [_ Hok];
      [discriminate |].
    destruct (Hok (fun _ => undefined) eq_refl) as [Hshort _].
    apply Hshort. simpl. lia.
  - destruct (run_backtest_outcomes (sample_indicators (fun _ => undefined))
                (fun _ => Execute) 34 (firstn 5 zero_volume_series)) as [Hraise _];
      [discriminate |].
    apply Hraise. reflexivity.
Defined.

(** * [fetch_stock_data] *)

Lemma insert_row_perm (row : Bar) (l : list Bar) :
  Permutation (insert_row row l) (row :: l).
Proof.
  induction l as [| x l IH]; simpl; [reflexivity |].
  destruct (datetime row <=? datetime x)%Z; [reflexivity |].
  rewrite IH. apply perm_swap.
Qed.

Lemma sort_index_perm (frame : list Bar) : Permutation (sort_index frame) frame.
Proof.
  induction frame as [| x l IH]; simpl; [reflexivity |].
  rewrite insert_row_perm. now constructor.
Qed.

Lemma insert_row_sorted (row : Bar) (l : list Bar) :
  StronglySorted by_date l -> StronglySorted by_date (insert_row row l).
Proof.
  induction l as [| x l IH]; intros Hs; simpl.
  - constructor; constructor.
  - inversion Hs as [| ? ? Hl Hx]; subst.
    destruct (datetime row <=? datetime x)%Z eqn:Hle.
    + apply Z.leb_le in Hle. constructor; [exact Hs |].
      constructor; [exact Hle |].
      eapply Forall_impl; [| exact Hx]. unfold by_date. intros; lia.
    + apply Z.leb_gt in Hle. constructor; [now apply IH |].
      rewrite (insert_row_perm row l). constructor; [unfold by_date; lia | exact Hx].
Qed.

Lemma sort_index_sorted (frame : list Bar) : StronglySorted by_date (sort_index frame).
Proof.
  induction frame as [| x l IH]; simpl; [constructor | now apply insert_row_sorted].
Qed.

Lemma sort_index_of_sorted (frame : list Bar) :
  StronglySorted by_date frame -> sort_index frame = frame.
Proof.
  induction frame as [| x l IH]; intros Hs; simpl; [reflexivity |].
  inversion Hs as [| ? ? Hl Hx]; subst. rewrite (IH Hl).
  destruct l as [| y l]; simpl; [reflexivity |].
  inversion Hx as [| ? ? Hxy _]; subst. unfold by_date in Hxy.
  apply Z.leb_le in Hxy. now rewrite Hxy.
Qed.

Section FetchProperties.

Variable int : String.string -> option Z.
Variable Timestamp : String.string -> option Stamp.
Variable now : Z.
Variable years_before : Z -> Z -> option Stamp.
Variable months_before : Z -> Z -> option Stamp.
Variable as_passed : option String.string -> option String.string -> option (Stamp * Stamp).

Local Abbreviation fetch :=
  (fetch_stock_data int Timestamp now years_before months_before as_passed).
Local Abbreviation range :=
  (date_range int Timestamp now years_before months_before as_passed).

Lemma fetch_returned (stock_data : option (list Bar))
    (period start_date end_date : option String.string) (df : list Bar) :
  fetch stock_data period start_date end_date = Returned (Some df) ->
  exists frame start stop,
    stock_data = Some frame
    /\ range period start_date end_date = Some (start, stop)
    /\ df = sort_index (filter (in_range start stop) frame).
Proof.
  unfold fetch_stock_data.
  destruct stock_data as [frame |].
  - destruct (date_range _ _ _ _ _ _ period start_date end_date) as [[start stop] |] eqn:Hr.
    + intros H. exists frame, start, stop.
      destruct period, start_date, end_date; inversion H; auto.
    + intros H. destruct period, start_date, end_date; inversion H.
  - intros H. destruct period, start_date, end_date; inversion H.
Qed.

(** X10. The failures of [fetch_stock_data].  It raises, with an
    [AssertionError], exactly when no period is given and a date is missing.
    Every other failure is swallowed and gives [None]: a frame that could not
    be loaded, a period whose count [int] rejects, and an explicit range whose
    start lies after its end. *)
Theorem fetch_failures (stock_data : option (list Bar))
    (period start_date end_date : option String.string) :
  (fetch stock_data period start_date end_date = AssertionError
   <-> period = None /\ (start_date = None \/ end_date = None))
  /\ (stock_data = None ->
      fetch stock_data period start_date end_date <> AssertionError ->
      fetch stock_data period start_date end_date = Returned None)
  /\ (forall s, period = Some s ->
        endswith s Literal.y = true \/ endswith s Literal.m = true ->
        int (but_last s) = None ->
        fetch stock_data period start_date end_date = Returned None)
  /\ (forall sd ed x y,
        period = None -> start_date = Some sd -> end_date = Some ed ->
        Timestamp sd = Some (At x) -> Timestamp ed = Some (At y) -> (y < x)%Z ->
        fetch stock_data period start_date end_date = Returned None).
Proof.
  unfold fetch_stock_data. split; [| split; [| split]].
  - destruct period, start_date, end_date; split;
      try discriminate; try tauto; intros [H1 [H2 | H2]]; discriminate.
  - intros -> Hne. destruct period, start_date, end_date; try reflexivity;
      exfalso; now apply Hne.
  - intros s -> Hsuffix Hint.
    assert (Hr : date_range int Timestamp now years_before months_before as_passed
                   (Some s) start_date end_date = None).
    { unfold date_range. rewrite Hint.
      destruct (endswith s Literal.y); [reflexivity |].
      destruct Hsuffix as [H | ->]; [discriminate | reflexivity]. }
    rewrite Hr. destruct stock_data, start_date, end_date; reflexivity.
  - intros sd ed x y -> -> -> Hsd Hed Hlt.
    unfold date_range. rewrite Hsd, Hed. simpl.
    apply Z.ltb_lt in Hlt. rewrite Hlt. destruct stock_data; reflexivity.
Qed.

(** X11. A frame that [fetch_stock_data] returns is sorted by date and is a
    rearrangement of the loaded rows whose date lies in the range, bounds
    included: no row is lost, added or duplicated.  With no period the range
    is the one parsed from [start_date] and [end_date], whose start is not
    after its end. *)
Theorem fetched_frame_is_sorted_and_in_range (stock_data : option (list Bar))
    (period start_date end_date : option String.string) (df : list Bar)
    (Hfetch : fetch stock_data period start_date end_date = Returned (Some df)) :
  exists frame start stop,
    stock_data = Some frame
    /\ StronglySorted by_date df
    /\ Permutation df (filter (in_range start stop) frame)
    /\ (forall row, In row df <->
          In row frame /\ stamp_le start (At (datetime row)) = true
                       /\ stamp_le (At (datetime row)) stop = true)
    /\ (period = None ->
        exists sd ed, start_date = Some sd /\ end_date = Some ed
                      /\ Timestamp sd = Some start /\ Timestamp ed = Some stop
                      /\ stamp_gt start stop = false).
Proof.
  destruct (fetch_returned _ _ _ _ _ Hfetch) as [frame [start [stop [Hs [Hr Hdf]]]]].
  exists frame, start, stop. split; [exact Hs |].
  split; [rewrite Hdf; apply sort_index_sorted |].
  split; [rewrite Hdf; apply sort_index_perm |].
  split.
  - intros row. rewrite Hdf.
    split.
    + intros Hin. apply (Permutation_in _ (sort_index_perm _)) in Hin.
      apply filter_In in Hin. destruct Hin as [Hin Hrange].
      apply andb_true_iff in Hrange. tauto.
    + intros [Hin [H1 H2]].
      apply (Permutation_in _ (Permutation_sym (sort_index_perm _))).
      apply filter_In. split; [exact Hin |]. unfold in_range. now rewrite H1, H2.
  - intros ->. unfold date_range in Hr.
    destruct start_date as [sd |]; [| discriminate].
    destruct end_date as [ed |]; [| discriminate].
    destruct (Timestamp sd) as [a |] eqn:Ha; [| discriminate].
    destruct (Timestamp ed) as [z |] eqn:Hz; [| discriminate].
    destruct (stamp_gt a z) eqn:Hgt; [discriminate |].
    inversion Hr; subst. exists sd, ed. auto.
Qed.

(** X12. A period in years or months overrides the dates: when [period] ends
    in [y] or [m], the result does not depend on [start_date] and [end_date],
    and the range kept ends now. *)
Theorem period_overrides_dates (stock_data : option (list Bar)) (s : String.string)
    (start_date end_date start_date' end_date' : option String.string)
    (Hsuffix : endswith s Literal.y = true \/ endswith s Literal.m = true) :
  fetch stock_data (Some s) start_date end_date
  = fetch stock_data (Some s) start_date' end_date'
  /\ forall start stop,
       range (Some s) start_date end_date = Some (start, stop) -> stop = At now.
Proof.
  assert (Hr : forall sd ed, range (Some s) sd ed = range (Some s) None None).
  { intros sd ed. unfold date_range.
    destruct (endswith s Literal.y); [reflexivity |].
    destruct Hsuffix as [H | ->]; [discriminate | reflexivity]. }
  split.
  - unfold fetch_stock_data.
    rewrite (Hr start_date end_date), (Hr start_date' end_date').
    destruct start_date, end_date, start_date', end_date'; reflexivity.
  - intros start stop. unfold date_range.
    destruct (endswith s Literal.y).
    + destruct (int (but_last s)); [| discriminate].
      destruct (years_before now z); [| discriminate]. intros H. now inversion H.
    + destruct Hsuffix as [H | ->]; [discriminate |].
      destruct (int (but_last s)); [| discriminate].
      destruct (months_before now z); [| discriminate]. intros H. now inversion H.
Qed.

End FetchProperties.

Lemma fetched_frame_is_sorted_and_in_range_witness :
  Sample.fetch (Some Sample.frame) None (Some Literal.jan_1) (Some Literal.jul_1)
  = Returned (Some [flat_bar 3 10; flat_bar 150 11])
  /\ StronglySorted by_date [flat_bar 3 10; flat_bar 150 11].
Proof.
  assert (H : Sample.fetch (Some Sample.frame) None (Some Literal.jan_1)
                (Some Literal.jul_1)
              = Returned (Some [flat_bar 3 10; flat_bar 150 11])) by reflexivity.
  split; [exact H |].
  destruct (fetched_frame_is_sorted_and_in_range Sample.int Sample.Timestamp Sample.now
              Sample.years_before Sample.months_before Sample.as_passed
              _ _ _ _ _ H) as [frame [start [stop [_ [Hsorted _]]]]].
  exact Hsorted.
Defined.

Lemma period_overrides_dates_witness :
  Sample.fetch (Some Sample.frame) (Some Literal.one_year)
    (Some Literal.jan_1) (Some Literal.jul_1)
  = Sample.fetch (Some Sample.frame) (Some Literal.one_year) None None.
Proof.
  apply (period_overrides_dates Sample.int Sample.Timestamp Sample.now
           Sample.years_before Sample.months_before Sample.as_passed).
  left. reflexivity.
Defined.

(** * From the fetched frame to the report *)

Lemma sorted_map_datetime (l : list Bar) :
  StronglySorted by_date l -> StronglySorted Z.le (map datetime l).
Proof.
  induction 1 as [| x l Hl IH Hx]; simpl; constructor; [exact IH |].
  rewrite Forall_map. exact Hx.
Qed.

Lemma sorted_skipn {A : Type} (R : A -> A -> Prop) (k : nat) (l : list A) :
  StronglySorted R l -> StronglySorted R (skipn k l).
Proof.
  revert k. induction l as [| x l IH]; intros [| k] H; simpl; trivial.
  inversion H; subst. now apply IH.
Qed.

(** X13. From fetch to report: for every frame that [fetch_stock_data]
    returns, whatever the indicators and the broker do, whenever
    [cerebro.run()] returns, the dates it has recorded for the report are in
    ascending order, with as many dates as values. *)
Theorem report_dates_ascend
    (int : String.string -> option Z) (Timestamp : String.string -> option Stamp)
    (now : Z) (years_before months_before : Z -> Z -> option Stamp)
    (as_passed : option String.string -> option String.string -> option (Stamp * Stamp))
    (indicators : list Bar -> Exc (nat -> Indicators)) (behaviour : nat -> BrokerEvent)
    (minperiod : nat)
    (stock_data : option (list Bar)) (period start_date end_date : option String.string)
    (df : list Bar) (results : Strategy * Broker)
    (Hfetch : fetch_stock_data int Timestamp now years_before months_before as_passed
                stock_data period start_date end_date = Returned (Some df))
    (Hrun : run_cerebro indicators behaviour minperiod df = Return results) :
  StronglySorted Z.le (dates (fst results))
  /\ length (dates (fst results)) = length (portfolio_values (fst results)).
Proof.
  destruct (fetch_returned _ _ _ _ _ _ _ _ _ _ _ Hfetch)
    as [frame [start [stop [_ [_ Hdf]]]]].
  assert (Hsorted : StronglySorted by_date df) by (rewrite Hdf; apply sort_index_sorted).
  unfold run_cerebro in Hrun.
  destruct (indicators df) as [computed | e]; [| discriminate]. cbn [bind] in Hrun.
  unfold cerebro_run in Hrun.
  destruct (run_record params
              (skipn (minperiod - 1) (feed (fun _ => computed) behaviour df))
              (minperiod - 1) init (new_broker 100000 (1 # 1000)))
    as [self' [b' [mask [vs [out [Hrun' [_ [Hd [Hv [Hl _]]]]]]]]]].
  rewrite Hrun' in Hrun. inversion Hrun; subst results.
  simpl in Hd, Hv. simpl. split.
  - rewrite Hd. apply pick_sorted.
    rewrite <- (@map_map _ _ _ data datetime), <- skipn_map, feed_data.
    now apply sorted_map_datetime, sorted_skipn.
  - now rewrite Hd, Hv.
Qed.

Lemma report_dates_ascend_witness :
  exists results,
    run_cerebro (fun _ => Return (fun _ => undefined)) (fun _ => Execute) 1
      [flat_bar 3 10; flat_bar 150 11] = Return results
    /\ StronglySorted Z.le (dates (fst results))
    /\ length (dates (fst results)) = length (portfolio_values (fst results)).
Proof.
  eexists. split; [reflexivity |].
  apply (report_dates_ascend Sample.int Sample.Timestamp Sample.now
           Sample.years_before Sample.months_before Sample.as_passed
           (fun _ => Return (fun _ => undefined)) (fun _ => Execute) 1
           (Some Sample.frame) None (Some Literal.jan_1) (Some Literal.jul_1)
           [flat_bar 3 10; flat_bar 150 11]); reflexivity.
Defined.

(** * The signals and the buffer *)

Lemma vlt_asym (a b : Value) : vlt a b = true -> vlt b a = false.
Proof.
  destruct a as [x |], b as [y |]; simpl; try discriminate.
  intros H. apply Qlt_bool_iff in H. apply Qlt_bool_false. lra.
Qed.

Lemma vlt_trans_false (a : Value) (lo hi : Q) :
  lo <= hi -> vlt a (Some lo) = true -> vlt (Some hi) a = false.
Proof.
  destruct a as [x |]; simpl; [| discriminate].
  intros Hle H. apply Qlt_bool_iff in H. apply Qlt_bool_false. lra.
Qed.

(** X14. No indicator votes both ways on one bar.  With the lower RSI
    threshold not above the upper one and the lower Bollinger band not above
    the upper one, the buy condition and the sell condition of the same
    indicator (MACD, RSI, KDJ, Bollinger) never hold together. *)
Theorem no_indicator_votes_both_ways (p : Params) (l : Lines) (c : Q)
    (Hrsi : rsi_lower p <= rsi_upper p)
    (Hboll : forall lo hi, bot_0 (ind l) = Some lo -> top_0 (ind l) = Some hi -> lo <= hi) :
  forall k, nth k (buy_conditions p l c) false && nth k (sell_conditions p l c) false = false.
Proof.
  intros k. unfold buy_conditions, sell_conditions, vgt.
  destruct k as [| [| [| [| k]]]]; cbn [nth].
  - destruct (vlt (macd_1 (ind l)) (macdsignal_1 (ind l))) eqn:H; [| reflexivity].
    rewrite (vlt_asym _ _ H). apply andb_false_r.
  - destruct (vlt (rsi_0 (ind l)) (Some (rsi_lower p))) eqn:H; [| reflexivity].
    now rewrite (vlt_trans_false _ _ _ Hrsi H).
  - destruct (vlt (slowk_1 (ind l)) (slowd_1 (ind l))) eqn:H; [| reflexivity].
    rewrite (vlt_asym _ _ H). apply andb_false_r.
  - destruct (bot_0 (ind l)) as [lo |] eqn:Hlo; [| reflexivity].
    destruct (top_0 (ind l)) as [hi |] eqn:Hhi; [| apply andb_false_r].
    specialize (Hboll lo hi eq_refl eq_refl). simpl.
    destruct (Qlt_bool c lo) eqn:H; [| reflexivity].
    apply Qlt_bool_iff in H. simpl. apply Qlt_bool_false. lra.
  - destruct k; reflexivity.
Qed.

Lemma no_indicator_votes_both_ways_witness :
  nth 1 (buy_conditions params (only_rsi 10) 10) false
  && nth 1 (sell_conditions params (only_rsi 10) 10) false = false.
Proof.
  apply no_indicator_votes_both_ways.
  - apply Qle_by_computation. reflexivity.
  - intros lo hi H. discriminate H.
Defined.



Lemma fetch_failures_witness :
  Sample.fetch (Some Sample.frame) None (Some Literal.jan_1) None = AssertionError
  /\ Sample.fetch (Some Sample.frame) None (Some Literal.jul_1) (Some Literal.jan_1)
     = Returned None.
Proof.
  split.
  - apply (fetch_failures Sample.int Sample.Timestamp Sample.now Sample.years_before
             Sample.months_before Sample.as_passed).
    split; [reflexivity | right; reflexivity].
  - destruct (fetch_failures Sample.int Sample.Timestamp Sample.now Sample.years_before
                Sample.months_before Sample.as_passed (Some Sample.frame) None
                (Some Literal.jul_1) (Some Literal.jan_1)) as [_ [_ [_ Hrange]]].
    apply (Hrange Literal.jul_1 Literal.jan_1 182%Z 1%Z); reflexivity.
Defined.
